(** * Economy-level structuring of BLP simulation results

    A shallow embedding of [pyblp/results/simulation_results.py]: the
    constructor of [SimulationResults], [to_problem] and [compute_micro],
    with the Python exceptions, the panel objects on the heap, the text
    passed to [output] and the clock made explicit. *)

From Stdlib Require Import Floats ZArith.
From Stdlib Require Qcanon.
From stdpp Require Import gmap strings list pretty.

Set Default Proof Using "Type*".

(** ** Element types of numeric arrays ([options.dtype])

    The arrays of prices, shares and moments hold elements of the type
    configured in [options.dtype]. The operations the unit applies to them
    are collected in a class; the inner product is the one of the numeric
    backend behind [@]. *)

Class Dtype := {
  num : Type;
  num_zero : num;
  num_add : num → num → num;
  num_div : num → num → num;
  num_dot : list num → list num → num;
  num_of_int : Z → num;
}.

Declare Scope num_scope.
Delimit Scope num_scope with num.
Infix "⊕" := num_add (at level 50, left associativity) : num_scope.
Infix "⊘" := num_div (at level 40, left associativity) : num_scope.
Local Open Scope num_scope.

(** Conversion of an integer count to binary64, rounded to the nearest
    even. The counts are entries of an array of 64-bit integers, from
    [- 2 ^ 63] to [2 ^ 63 - 1]: a positive count fits the 63 bits of the
    primitive integers, and so does the magnitude of a negative one, but
    for [- 2 ^ 63]. *)
Definition float_of_Z (z : Z) : float :=
  match z with
  | Z0 => 0%float
  | Zpos _ => PrimFloat.of_uint63 (Uint63.of_Z z)
  | Zneg p =>
      if (z =? - 2 ^ 63)%Z then (-9223372036854775808)%float
      else PrimFloat.opp (PrimFloat.of_uint63 (Uint63.of_Z (Zpos p)))
  end.

(** [numpy.float64], the default of [options.dtype]: binary64 arithmetic
    with rounding to the nearest even. The inner product behind [@] belongs
    to the numeric backend, which chooses the order of the summation and
    may fuse a product with a sum; the instance sums the rounded products
    from left to right. That is the backend's value whenever the products
    and the partial sums are exact, and can differ from it in the last bit
    otherwise. *)
Definition float64 : Dtype := {|
  num := float;
  num_zero := 0%float;
  num_add := PrimFloat.add;
  num_div := PrimFloat.div;
  num_dot := λ u v,
    fold_left PrimFloat.add (zip_with PrimFloat.mul u v) 0%float;
  num_of_int := float_of_Z;
|}.

(** Exact rational arithmetic, the idealised element type. *)
Definition exact : Dtype := {|
  num := Qcanon.Qc;
  num_zero := Qcanon.Q2Qc (QArith_base.inject_Z 0);
  num_add := Qcanon.Qcplus;
  num_div := Qcanon.Qcdiv;
  num_dot := λ u v,
    fold_left Qcanon.Qcplus (zip_with Qcanon.Qcmult u v)
      (Qcanon.Q2Qc (QArith_base.inject_Z 0));
  num_of_int := λ z, Qcanon.Q2Qc (QArith_base.inject_Z z);
|}.

(** ** Python exceptions and results *)

Inductive exn (K : Type) : Type :=
  | KeyError (k : K)
  | IndexError
  | ValueError (msg : string)
  | OverflowError
  | AssertionError
  | OtherError (msg : string).
Arguments KeyError {K} k.
Arguments IndexError {K}.
Arguments ValueError {K} msg.
Arguments OverflowError {K}.
Arguments AssertionError {K}.
Arguments OtherError {K} msg.

Inductive Result (K A : Type) : Type :=
  | OK (a : A)
  | Raise (e : exn K).
Arguments OK {K A} a.
Arguments Raise {K A} e.

Definition is_OK {K A} (r : Result K A) : Prop :=
  match r with OK _ => True | Raise _ => False end.

#[global] Instance Result_ret {K} : MRet (Result K) := λ A a, OK a.
#[global] Instance Result_bind {K} : MBind (Result K) := λ A B f r,
  match r with OK a => f a | Raise e => Raise e end.

(** [d[k]] on a dict. *)
Definition getitem {K V} `{Countable K} (d : gmap K V) (k : K) : Result K V :=
  match d !! k with Some v => OK v | None => Raise (KeyError k) end.

(** A list comprehension whose element expression can raise. *)
Fixpoint comprehension {K A B} (f : A → Result K B) (l : list A)
  : Result K (list B) :=
  match l with
  | [] => OK []
  | a :: l' => b ← f a; bs ← comprehension f l'; OK (b :: bs)
  end.

(** ** numpy operations on column vectors

    An array of shape [(n, 1)] is the list of its [n] entries, a matrix the
    list of its rows. *)

Abbreviation Array := (list num).
Abbreviation Matrix := (list (list num)).

Section Numpy.
Context {K : Type} {dt : Dtype}.

Definition np_zeros (n : nat) : Array := replicate n num_zero.

(** [a[indices]] for an integer index array: a new array. *)
Definition take {A} (a : list A) (indices : list nat) : Result K (list A) :=
  comprehension
    (λ i, match a !! i with Some x => OK x | None => Raise IndexError end)
    indices.

(** The broadcasting rule on the first axis of two [(n, 1)] operands. *)
Definition broadcast {A B C} (f : A → B → C) (a : list A) (b : list B)
  : Result K (list C) :=
  if decide (length a = length b) then OK (zip_with f a b)
  else match a, b with
       | [x], _ => OK (f x <$> b)
       | _, [y] => OK ((λ x, f x y) <$> a)
       | _, _ => Raise (ValueError "operands could not be broadcast together")
       end.

(** The in-place form: the result must have the shape of the target. *)
Definition broadcast_to {A B} (f : A → B → A) (target : list A) (b : list B)
  : Result K (list A) :=
  if decide (length b = length target) then OK (zip_with f target b)
  else match b with
       | [y] => OK ((λ x, f x y) <$> target)
       | _ => Raise (ValueError "non-broadcastable output operand")
       end.

(** [a[indices] = values], written entry after entry. *)
Definition put {A} (a : list A) (indices : list nat) (values : list A)
  : list A :=
  fold_left (λ acc iv, <[iv.1 := iv.2]> acc) (zip indices values) a.

(** [X @ b] for [X] of shape [(n, k)] and [b] of shape [(k, 1)]. *)
Definition matmul (X : Matrix) (b : Array) : Result K Array :=
  comprehension
    (λ row, if decide (length row = length b) then OK (num_dot row b)
            else Raise (ValueError "matmul: dimension mismatch"))
    X.

(** [numpy.array(values, dtype=numpy.int)]: a Python integer outside the
    range of a C long is refused. *)
Definition np_array_int (values : list Z) : Result K (list Z) :=
  comprehension
    (λ z, if decide (- 2 ^ 63 ≤ z < 2 ^ 63)%Z then OK z
          else Raise OverflowError)
    values.
End Numpy.

(** ** Data model *)

(** Objects on the heap are referred to by their address. *)
Abbreviation loc := nat.

Section Model.
Context {K : Type} `{Countable K}.
Context {dt : Dtype}.
Context {Error Moment Formulation Integration Parameters : Type}.

(** A panel ([recarray]): the price and share columns and the remaining
    fields by name. *)
Record RecArray := {
  prices : Array;
  shares : Array;
  columns : gmap string Array;
}.

Inductive ProductFormulations :=
  | Single (f : Formulation)
  | Several (fs : list (option Formulation)).

(** The attributes of [Simulation] that this unit reads. *)
Record Simulation := {
  product_data : loc;
  product_formulations : ProductFormulations;
  agent_formulation : option Formulation;
  agent_data : option loc;
  (** Modelled from the spec: the integration rule among the configuration
      of the simulation; no line of this unit reads it. *)
  integration : option Integration;
  unique_market_ids : list K;
  _product_market_indices : gmap K (list nat);
  _parameters : Parameters;
  sigma : Matrix;
  pi : Matrix;
  rho : Array;
  beta : Array;
  xi : Array;
}.

Record SolverStats := {
  converged : bool;
  iterations : Z;
  evaluations : Z;
}.

Record SimulationResults := {
  simulation : Simulation;
  r_product_data : loc;
  delta : Array;
  computation_time : float;
  fp_converged : list bool;
  fp_iterations : list Z;
  contraction_evaluations : list Z;
}.

(** The attributes of [EconomyMoments] that [compute_micro] reads:
    [market_indices[t]] are the rows of the moments relevant in market [t]
    and [market_counts] has one integer count per row. *)
Record EconomyMoments := {
  MM : nat;
  market_indices : gmap K (list nat);
  market_counts : list Z;
}.

(** The arguments [market_factory] hands to the market class. *)
Record SimulationResultsMarket := {
  m_simulation : Simulation;
  m_t : K;
  m_parameters : Parameters;
  m_sigma : Matrix;
  m_pi : Matrix;
  m_rho : Array;
  m_beta : Array;
  m_delta : Array;
  m_moments : EconomyMoments;
  m_prices : Array;
  m_shares : Array;
}.

(** The arguments [to_problem] hands to [Problem]. *)
Record Problem := {
  p_product_formulations : ProductFormulations;
  p_product_data : loc;
  p_agent_formulation : option Formulation;
  p_agent_data : option loc;
  p_integration : option Integration;
}.

(** ** Effects: heap, output and clock *)

Inductive Message :=
  | Text (s : string)
  | Formatted (moments : EconomyMoments) (title : string)
  | MultipleErrors (errors : list Error)
  | FinishedAfter (seconds : float).

Inductive Event :=
  | Output (m : Message)
  | Dispatch (t : K).

Record World := {
  heap : gmap loc RecArray;
  trace : list Event;
  clock : nat → float;
  reads : nat;
}.

Definition M (A : Type) : Type := World → Result K A * World.

#[global] Instance M_ret : MRet M := λ A a w, (OK a, w).
#[global] Instance M_bind : MBind M := λ A B f c w,
  match c w with
  | (OK a, w') => f a w'
  | (Raise e, w') => (Raise e, w')
  end.

Definition lift {A} (r : Result K A) : M A := λ w, (r, w).
Definition raise {A} (e : exn K) : M A := lift (Raise e).

Definition emit (ev : Event) : M unit := λ w,
  (OK (), {| heap := heap w; trace := trace w ++ [ev];
             clock := clock w; reads := reads w |}).

(** [output(message)] *)
Definition output (m : Message) : M unit := emit (Output m).

(** [time.time()] *)
Definition time_time : M float := λ w,
  (OK (clock w (reads w)),
   {| heap := heap w; trace := trace w; clock := clock w;
      reads := S (reads w) |}).

Definition deref (l : loc) : M RecArray := λ w,
  match heap w !! l with
  | Some a => (OK a, w)
  | None => (Raise (OtherError "dangling reference"), w)
  end.

Definition store (l : loc) (a : RecArray) : M unit := λ w,
  (OK (), {| heap := <[l := a]> (heap w); trace := trace w;
             clock := clock w; reads := reads w |}).

Definition alloc (a : RecArray) : M loc := λ w,
  let l := fresh (dom (heap w)) in
  (OK l, {| heap := <[l := a]> (heap w); trace := trace w;
            clock := clock w; reads := reads w |}).

(** [a.copy()]: a new object with the contents of [a]. *)
Definition copy (l : loc) : M loc := a ← deref l; alloc a.

(** Assignment to a field of a [recarray] writes the value into the
    column, broadcasting it to the column's shape. *)
Definition setfield (column val : Array) : Result K Array :=
  broadcast_to (λ _ v, v) column val.

Definition set_prices (l : loc) (val : Array) : M unit :=
  a ← deref l;
  c ← lift (setfield (prices a) val);
  store l {| prices := c; shares := shares a; columns := columns a |}.

Definition set_shares (l : loc) (val : Array) : M unit :=
  a ← deref l;
  c ← lift (setfield (shares a) val);
  store l {| prices := prices a; shares := c; columns := columns a |}.

(** ** Collaborators outside this unit *)

(** The methods of other units that this one calls.
    - [_compute_true_X1] is [Simulation._compute_true_X1]: the design
      matrix of the simulation's panel under a price override; it reads
      the panel and writes nothing.
    - [validate] checks one moment specification against the economy;
      [moment_market_indices] and [moment_market_counts] are the index
      map and the counts derived from the specifications.
    - [safely_compute_micro] is the method of [SimulationResultsMarket]:
      the partial result of one market with its soft errors; a fatal
      defect is raised. *)
Class Collaborators := {
  _compute_true_X1 : Simulation → RecArray → Array → Result K Matrix;
  validate : Simulation → Moment → Result K unit;
  moment_market_indices : Simulation → list Moment → gmap K (list nat);
  moment_market_counts : Simulation → list Moment → list Z;
  safely_compute_micro :
    SimulationResultsMarket → Result K (Array * list Error);
}.
Context {collaborators : Collaborators}.

(** Modelled from the spec: the moment validator (class [EconomyMoments]
    of module [moments], which is not part of this unit). It validates each
    specification, gives the specifications the rows of the moment vector,
    so that the total moment count is the number of specifications, and
    exposes the rows relevant in each market and the normalization
    counts. *)
Definition EconomyMoments_init (economy : Simulation)
    (micro_moments : list Moment) : Result K EconomyMoments :=
  _ ← comprehension (validate economy) micro_moments;
  OK {| MM := length micro_moments;
        market_indices := moment_market_indices economy micro_moments;
        market_counts := moment_market_counts economy micro_moments |}.

(** Modelled from the spec: the dispatcher ([generate_items] of module
    [utilities.basics], which is not part of this unit), as the sequential
    iterator: a lazy sequence with one step per key, in the order of the
    keys; a step builds the work item, runs the method on it and yields
    the key with the result. *)
Definition yield_of {A B} (factory : K → M A) (method : A → Result K B)
    (k : K) : M (K * B) :=
  a ← factory k;
  b ← lift (method a);
  mret (k, b).

Definition generate_items {A B} (keys : list K) (factory : K → M A)
    (method : A → Result K B) : list (M (K * B)) :=
  (λ k, _ ← emit (Dispatch k); yield_of factory method k) <$> keys.

(** A [for] loop over a generator: the next item is produced only after
    the body has run on the one before. *)
Fixpoint for_in {X S} (generator : list (M X)) (body : S → X → Result K S)
    (s : S) : M S :=
  match generator with
  | [] => mret s
  | next :: rest => x ← next; s' ← lift (body s x); for_in rest body s'
  end.

(** ** [SimulationResults.__init__] *)

(** [[iteration_stats[t].field for t in unique_market_ids]] *)
Definition diagnostics {A} (field : SolverStats → A)
    (iteration_stats : gmap K SolverStats) (ids : list K)
  : Result K (list A) :=
  comprehension (λ t, st ← getitem iteration_stats t; OK (field st)) ids.

Definition __init__ (simulation : Simulation) (prices shares : Array)
    (start_time end_time : float) (iteration_stats : gmap K SolverStats)
  : M SimulationResults :=
  data ← copy (product_data simulation);
  _ ← set_prices data prices;
  _ ← set_shares data shares;
  panel ← deref (product_data simulation);
  X1 ← lift (_compute_true_X1 simulation panel prices);
  Xb ← lift (matmul X1 (beta simulation));
  delta ← lift (broadcast num_add Xb (xi simulation));
  let computation_time := (end_time - start_time)%float in
  let ids := unique_market_ids simulation in
  fp_converged ← lift (diagnostics converged iteration_stats ids);
  its ← lift (diagnostics iterations iteration_stats ids);
  fp_iterations ← lift (np_array_int its);
  evs ← lift (diagnostics evaluations iteration_stats ids);
  contraction_evaluations ← lift (np_array_int evs);
  mret {| simulation := simulation;
          r_product_data := data;
          delta := delta;
          computation_time := computation_time;
          fp_converged := fp_converged;
          fp_iterations := fp_iterations;
          contraction_evaluations := contraction_evaluations |}.

(** ** [SimulationResults.to_problem]

    [Problem] is an opaque factory: the model returns the arguments it is
    called with. The assertion of the source holds by the types: neither
    the simulation's formulations nor the results' panel can be [None]. *)
Definition to_problem (self : SimulationResults)
    (product_formulations' : option ProductFormulations)
    (product_data' : option loc)
    (agent_formulation' : option Formulation)
    (agent_data' : option loc)
    (integration' : option Integration) : Problem :=
  let product_formulations' :=
    match product_formulations' with
    | None => product_formulations (simulation self)
    | Some f => f
    end in
  let product_data' :=
    match product_data' with
    | None => r_product_data self
    | Some d => d
    end in
  let agent_formulation' :=
    match agent_formulation' with
    | None => agent_formulation (simulation self)
    | Some f => Some f
    end in
  let agent_data' :=
    match agent_data' with
    | None => agent_data (simulation self)
    | Some d => Some d
    end in
  {| p_product_formulations := product_formulations';
     p_product_data := product_data';
     p_agent_formulation := agent_formulation';
     p_agent_data := agent_data';
     p_integration := integration' |}.

(** ** [SimulationResults.compute_micro] *)

(** [market_factory(s)]: the market with the rows of the overlaid prices
    and shares that belong to it. *)
Definition market_factory (self : SimulationResults)
    (moments : EconomyMoments) (s : K) : M SimulationResultsMarket :=
  let sim := simulation self in
  panel ← deref (r_product_data self);
  rows ← lift (getitem (_product_market_indices sim) s);
  prices_s ← lift (take (prices panel) rows);
  rows ← lift (getitem (_product_market_indices sim) s);
  shares_s ← lift (take (shares panel) rows);
  mret {| m_simulation := sim; m_t := s;
          m_parameters := _parameters sim;
          m_sigma := sigma sim; m_pi := pi sim; m_rho := rho sim;
          m_beta := beta sim; m_delta := delta self;
          m_moments := moments;
          m_prices := prices_s; m_shares := shares_s |}.

(** The body of the loop over the generator:
    [indices = moments.market_indices[t]],
    [micro[indices] += micro_t / moments.market_counts[indices]],
    [errors.extend(errors_t)]. The augmented assignment reads
    [micro[indices]] into a new array, adds the quotient to it in place
    and writes the array back to [micro[indices]]. *)
Definition accumulate (moments : EconomyMoments)
    (state : Array * list Error) (item : K * (Array * list Error))
  : Result K (Array * list Error) :=
  let '(micro, errors) := state in
  let '(t, (micro_t, errors_t)) := item in
  indices ← getitem (market_indices moments) t;
  target ← take micro indices;
  counts ← take (market_counts moments) indices;
  quotient ← broadcast (λ x c, x ⊘ num_of_int c) micro_t counts;
  total ← broadcast_to num_add target quotient;
  OK (put micro indices total, errors ++ errors_t).

Definition warn (errors : list Error) : M unit :=
  match errors with
  | [] => mret ()
  | _ :: _ =>
      _ ← output (Text "");
      _ ← output (MultipleErrors errors);
      output (Text "")
  end.

Definition compute_micro (self : SimulationResults)
    (micro_moments : list Moment) : M Array :=
  let errors : list Error := [] in
  _ ← output (Text "Computing micro moment values ...");
  start_time ← time_time;
  moments ← lift (EconomyMoments_init (simulation self) micro_moments);
  if decide (MM moments = 0) then
    raise (ValueError "At least one micro moment should be specified.")
  else
    _ ← output (Text "");
    _ ← output (Formatted moments "Micro Moments");
    let micro := np_zeros (MM moments) in
    let generator :=
      generate_items (unique_market_ids (simulation self))
        (market_factory self moments) safely_compute_micro in
    final ← for_in generator (accumulate moments) (micro, errors);
    _ ← warn final.2;
    end_time ← time_time;
    _ ← output (Text "");
    _ ← output (FinishedAfter (end_time - start_time)%float);
    _ ← output (Text "");
    mret final.1.

(** ** The loop of [compute_micro], entry by entry *)

(** The loop over the items of a generator that has already run. *)
Fixpoint aggregate (moments : EconomyMoments)
    (items : list (K * (Array * list Error)))
    (state : Array * list Error) : Result K (Array * list Error) :=
  match items with
  | [] => OK state
  | item :: rest =>
      state' ← accumulate moments state item;
      aggregate moments rest state'
  end.

(** The soft errors of the items, in the order of the items. *)
Definition collected (items : list (K * (Array * list Error)))
  : list Error :=
  concat ((λ item, item.2.2) <$> items).

(** The item a generator step yields for market [k] on heap [h]. *)
Definition world_of (h : gmap loc RecArray) : World :=
  {| heap := h; trace := []; clock := λ _, 0%float; reads := 0 |}.

Definition item_of (self : SimulationResults) (moments : EconomyMoments)
    (h : gmap loc RecArray) (k : K) : Result K (K * (Array * list Error)) :=
  (yield_of (market_factory self moments) safely_compute_micro k
     (world_of h)).1.

(** The value that [a[indices] = values] leaves in row [i], if it writes
    the row: of several writes the last one stays. *)
Fixpoint contribution {A} (indices : list nat) (values : list A) (i : nat)
  : option A :=
  match indices, values with
  | j :: indices', v :: values' =>
      match contribution indices' values' i with
      | Some r => Some r
      | None => if decide (j = i) then Some v else None
      end
  | _, _ => None
  end.

(** A partial result with a single entry is broadcast to all rows. *)
Definition spread {A} (k : nat) (values : list A) : list A :=
  match values with
  | [x] => replicate k x
  | _ => values
  end.

(** The raw contribution of an item's market to row [i], if the market
    contributes to that row. *)
Definition raw_contribution (moments : EconomyMoments)
    (item : K * (Array * list Error)) (i : nat) : option num :=
  match market_indices moments !! item.1 with
  | Some indices =>
      contribution indices (spread (length indices) item.2.1) i
  | None => None
  end.

(** The count the loop divides row [i] by. *)
Definition row_count (moments : EconomyMoments) (i : nat) : num :=
  num_of_int (default 0%Z (market_counts moments !! i)).

Definition normalized (moments : EconomyMoments) (i : nat) (acc : num)
    (item : K * (Array * list Error)) : num :=
  match raw_contribution moments item i with
  | Some r => acc ⊕ r ⊘ row_count moments i
  | None => acc
  end.

(** The normalized contributions to row [i], summed in the order of the
    items from the initial zero. *)
Definition normalized_sum (moments : EconomyMoments)
    (items : list (K * (Array * list Error))) (i : nat) : num :=
  fold_left (normalized moments i) items num_zero.

(** The averaged entry in the words of the specification: the raw
    contribution of every contributing market divided by that market's
    own observation count, summed over the markets. *)
Definition spec_markets_weighted (observation_count : K → Z)
    (moments : EconomyMoments) (items : list (K * (Array * list Error)))
    (i : nat) : num :=
  fold_left
    (λ acc item,
       match raw_contribution moments item i with
       | Some r => acc ⊕ r ⊘ num_of_int (observation_count item.1)
       | None => acc
       end)
    items num_zero.

(** An item the loop body accepts on a moment vector of [n] rows: its
    market has an index set within the vector and the counts, and its
    partial result has one entry per index or a single entry. *)
Definition item_fits (moments : EconomyMoments) (n : nat)
    (item : K * (Array * list Error)) : Prop :=
  ∃ indices,
    market_indices moments !! item.1 = Some indices
    ∧ Forall (λ i, i < n ∧ i < length (market_counts moments)) indices
    ∧ (length item.2.1 = length indices ∨ length item.2.1 = 1).

Definition with_heap (w : World) (h : gmap loc RecArray) : World :=
  {| heap := h; trace := trace w; clock := clock w; reads := reads w |}.

(** The aggregate warnings in a trace, oldest first. *)
Definition warnings (events : list Event) : list (list Error) :=
  omap (λ ev, match ev with
              | Output (MultipleErrors errors) => Some errors
              | _ => None
              end) events.

(** The world after the generator has run for [keys]. *)
Definition dispatched (keys : list K) (w : World) : World :=
  {| heap := heap w; trace := trace w ++ (Dispatch <$> keys);
     clock := clock w; reads := reads w |}.

(** The world after a successful [compute_micro]. *)
Definition reported (moments : EconomyMoments) (ids : list K)
    (errors : list Error) (w : World) : World :=
  {| heap := heap w;
     trace :=
       trace w
       ++ [Output (Text "Computing micro moment values ...");
           Output (Text ""); Output (Formatted moments "Micro Moments")]
       ++ (Dispatch <$> ids)
       ++ match errors with
          | [] => []
          | _ :: _ => [Output (Text ""); Output (MultipleErrors errors);
                       Output (Text "")]
          end
       ++ [Output (Text "");
           Output (FinishedAfter
                     (clock w (S (reads w)) - clock w (reads w))%float);
           Output (Text "")];
     clock := clock w;
     reads := S (S (reads w)) |}.

End Model.

(** ** A small economy

    Two markets ["a"] and ["b"] with three products and binary64 arrays. Of
    the micro moments given, the last one is relevant in no market and the
    others in both. The partial result of a market is its first price for
    every relevant moment; market ["b"] reports a soft error. *)

Module Example.

Definition collab64
  : Collaborators (K := string) (dt := float64) (Error := string)
      (Moment := string) (Formulation := string) (Integration := string)
      (Parameters := unit) :=
  Build_Collaborators (dt := float64)
    (λ _ _ p, OK ((λ x, [1%float; x]) <$> p))
    (λ _ _, OK ())
    (λ sim ms,
       list_to_map
         ((λ t, (t, seq 0 (length ms - 1))) <$> unique_market_ids sim))
    (λ sim ms,
       replicate (length ms) (Z.of_nat (length (unique_market_ids sim))))
    (λ m, OK (replicate (MM (m_moments m) - 1) (hd 0%float (m_prices m)),
              if decide (m_t m = "b") then ["overflow"] else [])).

Definition panel0 : RecArray (dt := float64) :=
  Build_RecArray (dt := float64) [0; 0; 0]%float [0; 0; 0]%float ∅.

Definition panel1 : RecArray (dt := float64) :=
  Build_RecArray (dt := float64) [1; 2; 3]%float [0.25; 0.25; 0.5]%float ∅.

Definition sim0
  : Simulation (K := string) (dt := float64) (Formulation := string)
      (Integration := string) (Parameters := unit) :=
  Build_Simulation (dt := float64) 0 (Single "prices") None None
    (Some "monte_carlo") ["a"; "b"] {[ "a" := [0; 1]; "b" := [2] ]} ()
    [] [] [] [1; -2]%float [0.5; 0.5; 0.5]%float.

Definition stats0 : gmap string SolverStats :=
  {[ "a" := {| converged := true; iterations := 3; evaluations := 7 |};
     "b" := {| converged := false; iterations := 5; evaluations := 11 |} ]}.

(** The statistics of a solver that has lost market ["b"]. *)
Definition stats_a : gmap string SolverStats :=
  {[ "a" := {| converged := true; iterations := 3; evaluations := 7 |} ]}.

Definition ticks (n : nat) : float :=
  PrimFloat.of_uint63 (Uint63.of_Z (Z.of_nat n)).

(** Before the construction: the simulation's panel is the only object. *)
Definition w0 : World (K := string) (dt := float64) (Error := string) :=
  {| heap := {[ 0 := panel0 ]}; trace := []; clock := ticks; reads := 0 |}.

(** After the construction: the results hold the overlaid copy. *)
Definition w1 : World (K := string) (dt := float64) (Error := string) :=
  {| heap := {[ 0 := panel0; 1 := panel1 ]}; trace := []; clock := ticks;
     reads := 0 |}.

Definition results0
  : SimulationResults (K := string) (dt := float64) (Formulation := string)
      (Integration := string) (Parameters := unit) :=
  Build_SimulationResults (dt := float64) sim0 1
    [-0.5; -2.5; -4.5]%float 1%float [true; false] [3; 5]%Z [7; 11]%Z.

Definition moments0 : EconomyMoments (K := string) :=
  {| MM := 2;
     market_indices := {[ "a" := [0]; "b" := [0] ]};
     market_counts := [2; 2]%Z |}.

Definition items0 : list (string * (list (num (Dtype := float64)) * list string)) :=
  [("a", ([1]%float, [])); ("b", ([3]%float, ["overflow"]))].

(** Three markets that contribute to one moment, in two orders. *)
Definition moments3 : EconomyMoments (K := string) :=
  {| MM := 1;
     market_indices := {[ "a" := [0]; "b" := [0]; "c" := [0] ]};
     market_counts := [1]%Z |}.

Definition items_abc : list (string * (list (num (Dtype := float64)) * list string)) :=
  [("a", ([1e16]%float, [])); ("b", ([1]%float, []));
   ("c", ([-1e16]%float, []))].

Definition items_acb : list (string * (list (num (Dtype := float64)) * list string)) :=
  [("a", ([1e16]%float, [])); ("c", ([-1e16]%float, []));
   ("b", ([1]%float, []))].

(** The same in exact arithmetic. *)
Definition q (z : Z) : Qcanon.Qc := num_of_int (Dtype := exact) z.

Definition exact_abc : list (string * (list (num (Dtype := exact)) * list string)) :=
  [("a", ([q 10000000000000000], ["e1"])); ("b", ([q 1], []));
   ("c", ([q (-10000000000000000)], ["e2"]))].

Definition exact_acb : list (string * (list (num (Dtype := exact)) * list string)) :=
  [("a", ([q 10000000000000000], ["e1"]));
   ("c", ([q (-10000000000000000)], ["e2"])); ("b", ([q 1], []))].

(** Two markets that contribute to the one moment, with the counts of the
    rows left open, and observation counts of their own for the two
    markets. *)
Definition two_markets (counts : list Z) : EconomyMoments (K := string) :=
  {| MM := 1;
     market_indices := {[ "a" := [0]; "b" := [0] ]};
     market_counts := counts |}.

Definition two_items (R1 R2 : Qcanon.Qc)
  : list (string * (list (num (Dtype := exact)) * list string)) :=
  [("a", ([R1], [])); ("b", ([R2], []))].

Definition observations (t : string) : Z :=
  if decide (t = "a") then 3%Z else 5%Z.

End Example.

(** ** [SimulationResults.__str__] *)

(** A value handed to the table formatter: text or an integer. *)
Inductive Cell :=
  | CellStr (s : string)
  | CellInt (z : Z).

(** The formatting helpers of [utilities.basics]: [format_seconds], and for
    a [TableFormatter] built from a list of widths its [line()] and its
    call on a row of values with the [underline] flag. *)
Class Formatting := {
  format_seconds : float → string;
  formatter_line : list nat → string;
  formatter_row : list nat → list Cell → bool → string;
}.

(** The value of a 64-bit signed integer after an overflow. *)
Definition wrap64 (z : Z) : Z := ((z + 2 ^ 63) mod 2 ^ 64 - 2 ^ 63)%Z.

(** [a.sum()] on an array of 64-bit integers: the result is a 64-bit
    integer and an overflow wraps around. *)
Definition np_sum (a : list Z) : Z :=
  fold_left (λ acc z, wrap64 (acc + z)) a 0%Z.

(** The sum of integers, without overflow. *)
Definition total (a : list Z) : Z := foldr Z.add 0%Z a.

Definition newline : string :=
  String (Ascii.Ascii false true false true false false false false)
    EmptyString.

Section Summary.
Context {K : Type} `{Countable K}.
Context {dt : Dtype}.
Context {Formulation Integration Parameters : Type}.
Context {formatting : Formatting}.

Definition __str__ (self : SimulationResults (K := K)
                             (Formulation := Formulation)
                             (Integration := Integration)
                             (Parameters := Parameters)) : string :=
  let header :=
    [("Computation", "Time"); ("Fixed Point", "Iterations");
     ("Contraction", "Evaluations")] in
  let widths :=
    (λ k : string * string, String.length k.1 `max` String.length k.2)
      <$> header in
  String.concat newline
    [ "Simulation Results Summary:";
      formatter_line widths;
      formatter_row widths ((λ k, CellStr k.1) <$> header) false;
      formatter_row widths ((λ k, CellStr k.2) <$> header) true;
      formatter_row widths
        [ CellStr (format_seconds (computation_time self));
          CellInt (np_sum (fp_iterations self));
          CellInt (np_sum (contraction_evaluations self)) ]
        false;
      formatter_line widths ].

End Summary.

(** ** The phases of [compute_micro] *)

Section Phases.
Context {K : Type} `{Countable K}.
Context {dt : Dtype}.
Context {Error : Type}.

(** After the opening message and the first reading of the clock. *)
Definition opened (w : World (K := K) (Error := Error)) : World :=
  {| heap := heap w;
     trace := trace w ++ [Output (Text "Computing micro moment values ...")];
     clock := clock w;
     reads := S (reads w) |}.

(** After the moments have been validated and printed. *)
Definition announced (moments : EconomyMoments)
    (w : World (K := K) (Error := Error)) : World :=
  {| heap := heap w;
     trace :=
       trace w
       ++ [Output (Text "Computing micro moment values ...");
           Output (Text ""); Output (Formatted moments "Micro Moments")];
     clock := clock w;
     reads := S (reads w) |}.

(** After the warning, the second reading of the clock and the closing
    messages, from the world [w] in which the loop has ended. *)
Definition closed (errors : list Error) (start_time : float)
    (w : World (K := K) (Error := Error)) : World :=
  {| heap := heap w;
     trace :=
       trace w
       ++ match errors with
          | [] => []
          | _ :: _ => [Output (Text ""); Output (MultipleErrors errors);
                       Output (Text "")]
          end
       ++ [Output (Text "");
           Output (FinishedAfter (clock w (reads w) - start_time)%float);
           Output (Text "")];
     clock := clock w;
     reads := S (reads w) |}.

End Phases.

(** ** Markets without soft errors *)

Section Successful.
Context {K : Type} {dt : Dtype} {Error : Type}.

(** The items of the markets that reported no soft error. *)
Definition successful (items : list (K * (Array * list Error)))
  : list (K * (Array * list Error)) :=
  filter (λ item, length item.2.2 = 0) items.

End Successful.

(** ** More of the small economy

    A table formatter, an economy with a third market, and collaborators
    whose market computation fails in market ["b"], reports no soft
    errors, or whose validation refuses the moment ["bad"]. *)

Module Example2.
Import Example.

Definition cell_text (c : Cell) : string :=
  match c with
  | CellStr s => s
  | CellInt z => pretty z
  end.

Definition fmt : Formatting :=
  {| format_seconds := λ _, "00:00:01";
     formatter_line := λ widths, String.concat "  " ((λ _, "===") <$> widths);
     formatter_row := λ _ cells _, String.concat "  " (cell_text <$> cells) |}.

Definition prices1 : list (num (Dtype := float64)) := [1; 2; 3]%float.
Definition shares1 : list (num (Dtype := float64)) := [0.25; 0.25; 0.5]%float.

Definition X1_0 : list (list (num (Dtype := float64))) :=
  [[1; 1]; [1; 2]; [1; 3]]%float.

Definition collab_fatal
  : Collaborators (K := string) (dt := float64) (Error := string)
      (Moment := string) (Formulation := string) (Integration := string)
      (Parameters := unit) :=
  Build_Collaborators (dt := float64)
    (_compute_true_X1 (Collaborators := collab64))
    (validate (Collaborators := collab64))
    (moment_market_indices (Collaborators := collab64))
    (moment_market_counts (Collaborators := collab64))
    (λ m, if decide (m_t m = "b") then Raise (OtherError "singular matrix")
          else safely_compute_micro (Collaborators := collab64) m).

Definition collab_quiet
  : Collaborators (K := string) (dt := float64) (Error := string)
      (Moment := string) (Formulation := string) (Integration := string)
      (Parameters := unit) :=
  Build_Collaborators (dt := float64)
    (_compute_true_X1 (Collaborators := collab64))
    (validate (Collaborators := collab64))
    (moment_market_indices (Collaborators := collab64))
    (moment_market_counts (Collaborators := collab64))
    (λ m, OK (replicate (MM (m_moments m) - 1) (hd 0%float (m_prices m)),
              [])).

Definition collab_invalid
  : Collaborators (K := string) (dt := float64) (Error := string)
      (Moment := string) (Formulation := string) (Integration := string)
      (Parameters := unit) :=
  Build_Collaborators (dt := float64)
    (_compute_true_X1 (Collaborators := collab64))
    (λ _ m, if decide (m = "bad") then Raise (ValueError "invalid moment")
            else OK ())
    (moment_market_indices (Collaborators := collab64))
    (moment_market_counts (Collaborators := collab64))
    (safely_compute_micro (Collaborators := collab64)).

(** Only market ["a"] contributes to the first moment. *)
Definition collab_single
  : Collaborators (K := string) (dt := float64) (Error := string)
      (Moment := string) (Formulation := string) (Integration := string)
      (Parameters := unit) :=
  Build_Collaborators (dt := float64)
    (_compute_true_X1 (Collaborators := collab64))
    (validate (Collaborators := collab64))
    (λ _ _, {[ "a" := [0]; "b" := [] ]})
    (moment_market_counts (Collaborators := collab64))
    (λ m, OK (if decide (m_t m = "a") then [hd 0%float (m_prices m)] else [],
              [])).

Definition sim3
  : Simulation (K := string) (dt := float64) (Formulation := string)
      (Integration := string) (Parameters := unit) :=
  Build_Simulation (dt := float64) 0 (Single "prices") None None
    (Some "monte_carlo") ["a"; "b"; "c"]
    {[ "a" := [0]; "b" := [1]; "c" := [2] ]} ()
    [] [] [] [1; -2]%float [0.5; 0.5; 0.5]%float.

Definition results3
  : SimulationResults (K := string) (dt := float64) (Formulation := string)
      (Integration := string) (Parameters := unit) :=
  Build_SimulationResults (dt := float64) sim3 1
    [-0.5; -2.5; -4.5]%float 1%float [true; false; true] [3; 5; 2]%Z
    [7; 11; 4]%Z.

Definition moments3m : EconomyMoments (K := string) :=
  {| MM := 2;
     market_indices := {[ "a" := [0]; "b" := [0]; "c" := [0] ]};
     market_counts := [3; 3]%Z |}.

(** The results of the small economy with the markets in the other
    order. *)
Definition results0_swapped
  : SimulationResults (K := string) (dt := float64) (Formulation := string)
      (Integration := string) (Parameters := unit) :=
  Build_SimulationResults (dt := float64) sim0 1
    [-0.5; -2.5; -4.5]%float 1%float [false; true] [5; 3]%Z [11; 7]%Z.

Definition items_quiet
  : list (string * (list (num (Dtype := float64)) * list string)) :=
  [("a", ([1]%float, [])); ("b", ([3]%float, []))].

End Example2.

(** * Properties *)

(** ** Results and comprehensions *)

Section ResultFacts.
Context {K : Type}.

Lemma bind_OK {A B} (f : A → Result K B) (r : Result K A) (b : B) :
  r ≫= f = OK b ↔ ∃ a, r = OK a ∧ f a = OK b.
Proof.
  destruct r as [a|e]; simpl; split.
  - intros Hf. by exists a.
  - by intros (a' & [= ->] & Hf).
  - intros [=].
  - by intros (a' & [=] & _).
Qed.

Lemma comprehension_OK {A B} (f : A → Result K B) l bs :
  comprehension f l = OK bs ↔ Forall2 (λ a b, f a = OK b) l bs.
Proof.
  revert bs. induction l as [|a l IH]; intros bs; simpl.
  - split; [intros [= <-]; constructor | by inversion 1].
  - rewrite bind_OK. split.
    + intros (b & Hb & Hrest). apply bind_OK in Hrest as (bs' & Hbs & [= <-]).
      constructor; [done | by apply IH].
    + inversion 1 as [|? b ? bs' Hb Hbs]; subst. exists b. split; [done |].
      apply bind_OK. exists bs'. split; [by apply IH | done].
Qed.

Lemma comprehension_length {A B} (f : A → Result K B) l bs :
  comprehension f l = OK bs → length bs = length l.
Proof. rewrite comprehension_OK. intros Hall. symmetry. by eapply Forall2_length. Qed.

(** A comprehension raises what its first failing element raises. *)
Lemma comprehension_Raise {A B} (f : A → Result K B) l a e :
  a ∈ l → f a = Raise e →
  ∃ a0 e0, a0 ∈ l ∧ f a0 = Raise e0 ∧ comprehension f l = Raise e0.
Proof.
  induction l as [|a' l IH]; [by intros ?%elem_of_nil |].
  intros Hin Hf. cbn [comprehension].
  destruct (f a') as [b|e1] eqn:Hfa'.
  - apply elem_of_cons in Hin as [-> | Hin]; [congruence |].
    destruct (IH Hin Hf) as (a0 & e0 & Hin0 & Hf0 & ->).
    exists a0, e0. split; [apply elem_of_cons; by right |]. done.
  - exists a', e1. split; [apply elem_of_cons; by left |]. done.
Qed.

Lemma take_OK {A} (a : list A) indices l :
  take (K := K) a indices = OK l ↔ Forall2 (λ i x, a !! i = Some x) indices l.
Proof.
  unfold take. rewrite comprehension_OK.
  split; intros Hall; (eapply Forall2_impl; [exact Hall |]);
    intros i x; simpl; destruct (a !! i); naive_solver.
Qed.
End ResultFacts.

(** ** Index arrays: reading, broadcasting and writing back *)

Section ArrayFacts.
Context {K : Type}.

Lemma take_total {A} (a : list A) indices :
  Forall (λ i, i < length a) indices →
  ∃ l, take (K := K) a indices = OK l ∧ length l = length indices.
Proof.
  induction 1 as [|i indices Hi _ (l & Hl & Hlen)].
  - by exists [].
  - destruct (lookup_lt_is_Some_2 a i Hi) as [x Hx].
    exists (x :: l). unfold take in *. simpl. rewrite Hx, Hl. simpl.
    by rewrite Hlen.
Qed.

Lemma put_length {A} (a : list A) indices values :
  length (put a indices values) = length a.
Proof.
  unfold put. revert a values.
  induction indices as [|j indices IH]; intros a [|v values]; simpl; try done.
  by rewrite IH, length_insert.
Qed.

Lemma put_lookup {A} (a : list A) indices values i :
  i < length a →
  put a indices values !! i
  = match contribution indices values i with
    | Some r => Some r
    | None => a !! i
    end.
Proof.
  unfold put. revert a values.
  induction indices as [|j indices IH]; intros a [|v values] Hi; simpl;
    try done.
  rewrite IH by by rewrite length_insert.
  destruct (contribution indices values i); [done |].
  case_decide as Hj.
  - subst j. by apply list_lookup_insert_eq.
  - by apply list_lookup_insert_ne.
Qed.

Lemma contribution_zip_with {A B} (F : nat → A → B) indices values i :
  contribution indices (zip_with F indices values) i
  = F i <$> contribution indices values i.
Proof.
  revert values.
  induction indices as [|j indices IH]; intros [|v values]; simpl; try done.
  rewrite IH. destruct (contribution indices values i); simpl; [done |].
  case_decide; by subst.
Qed.

Lemma contribution_None {A} indices (values : list A) i :
  i ∉ indices → contribution indices values i = None.
Proof.
  revert values.
  induction indices as [|j indices IH]; intros [|v values] Hi; simpl;
    try done.
  apply not_elem_of_cons in Hi as [Hne Hi]. rewrite IH by done.
  by case_decide.
Qed.

Lemma spread_same {A} (values : list A) :
  spread (length values) values = values.
Proof. by destruct values as [|x [|y values]]. Qed.

Lemma spread_length {A} k (values : list A) :
  length values = k ∨ length values = 1 → length (spread k values) = k.
Proof.
  intros [<- | Hone]; [by rewrite spread_same |].
  destruct values as [|x [|y values]]; try done. simpl.
  by rewrite length_replicate.
Qed.

Lemma zip_with_replicate_l {A B C} (f : A → B → C) x (l : list B) :
  zip_with f (replicate (length l) x) l = f x <$> l.
Proof. induction l as [|b l IH]; simpl; [done | by rewrite IH]. Qed.

(** A quotient that has passed both broadcasting checks is the entrywise
    quotient of the spread partial result. *)
Lemma broadcast_spread {A B C} (f : A → B → C) (g : C → C → C)
    (micro_t : list A) (counts : list B) (target quotient total : list C) :
  length target = length counts →
  broadcast (K := K) f micro_t counts = OK quotient →
  broadcast_to (K := K) g target quotient = OK total →
  (length micro_t = length counts ∨ length micro_t = 1)
  ∧ total
    = zip_with g target (zip_with f (spread (length counts) micro_t) counts).
Proof.
  intros Hlen. unfold broadcast, broadcast_to.
  case_decide as Hshape.
  - intros [= <-].
    rewrite decide_True by (rewrite length_zip_with; lia). intros [= <-].
    split; [by left |]. by rewrite <- Hshape, spread_same.
  - destruct micro_t as [|x [|x' micro_t]].
    + destruct counts as [|y [|y' counts]]; try done.
      intros [= <-]. simpl. rewrite decide_False by (simpl in *; lia).
      done.
    + intros [= <-]. rewrite length_fmap, decide_True by done.
      intros [= <-]. split; [by right |]. simpl.
      by rewrite zip_with_replicate_l.
    + destruct counts as [|y [|y' counts]]; try done.
      intros [= <-]. simpl. rewrite decide_False by (simpl in *; lia).
      done.
Qed.

Lemma broadcast_total {A B C} (f : A → B → C) (g : C → C → C)
    (micro_t : list A) (counts : list B) (target : list C) :
  length target = length counts →
  length micro_t = length counts ∨ length micro_t = 1 →
  ∃ quotient total,
    broadcast (K := K) f micro_t counts = OK quotient
    ∧ broadcast_to (K := K) g target quotient = OK total.
Proof.
  intros Hlen Hshape. unfold broadcast, broadcast_to.
  case_decide as Hdec.
  - eexists _, _. split; [done |].
    by rewrite decide_True by (rewrite length_zip_with; lia).
  - destruct Hshape as [? | Hone]; [done |].
    destruct micro_t as [|x [|x' micro_t]]; try done.
    eexists _, _. split; [done |].
    by rewrite length_fmap, decide_True by done.
Qed.
End ArrayFacts.

(** ** The loop body and the loop *)

Section LoopFacts.
Context {K : Type} `{Countable K}.
Context {dt : Dtype}.
Context {Error : Type}.
Implicit Types (moments : EconomyMoments (K := K)).
Implicit Types (micro : Array) (errors : list Error).
Implicit Types (item : K * (Array * list Error)).

Lemma zip_with_rows moments micro indices target counts (values : Array) :
  Forall2 (λ i x, micro !! i = Some x) indices target →
  Forall2 (λ i c, market_counts moments !! i = Some c) indices counts →
  zip_with num_add target
    (zip_with (λ x c, x ⊘ num_of_int c) values counts)
  = zip_with
      (λ i r, default num_zero (micro !! i) ⊕ r ⊘ row_count moments i)
      indices values.
Proof.
  intros Htarget. revert counts values.
  induction Htarget as [|i x indices target Hx _ IH];
    intros counts values Hcounts; inversion Hcounts as [|? c ? counts' Hc Hrest];
    subst; [done |].
  destruct values as [|r values]; simpl; [done |].
  unfold row_count at 1. rewrite Hx, Hc. simpl. f_equal. by apply IH.
Qed.

(** One pass of the loop body: the soft errors are appended, the vector
    keeps its shape and every row receives the normalized contribution
    of the item's market, if the market contributes to it. *)
Lemma accumulate_OK moments micro errors item micro' errors' :
  accumulate moments (micro, errors) item = OK (micro', errors') →
  errors' = errors ++ item.2.2
  ∧ length micro' = length micro
  ∧ ∀ i x, micro !! i = Some x →
      micro' !! i = Some (normalized moments i x item).
Proof.
  destruct item as [t [micro_t errors_t]]. unfold accumulate.
  intros (indices & Hindices & Hstep)%bind_OK.
  apply bind_OK in Hstep as (target & Htarget & Hstep).
  apply bind_OK in Hstep as (counts & Hcounts & Hstep).
  apply bind_OK in Hstep as (quotient & Hquotient & Hstep).
  apply bind_OK in Hstep as (total & Htotal & [= <- <-]).
  unfold getitem in Hindices.
  destruct (market_indices moments !! t) as [indices'|] eqn:Hlookup;
    [| done]. injection Hindices as ->.
  apply take_OK in Htarget, Hcounts.
  pose proof (Forall2_length _ _ _ Htarget) as Hlen1.
  pose proof (Forall2_length _ _ _ Hcounts) as Hlen2.
  assert (length target = length counts) as Hlen by congruence.
  destruct (broadcast_spread _ _ _ _ _ _ _ Hlen Hquotient Htotal)
    as [_ ->].
  rewrite (zip_with_rows moments micro indices) by done.
  split; [done |]. split; [apply put_length |].
  intros i x Hx. rewrite put_lookup by by eapply lookup_lt_Some.
  rewrite <- Hlen2, contribution_zip_with.
  unfold normalized, raw_contribution. simpl. rewrite Hlookup.
  destruct (contribution indices _ i); simpl; by rewrite Hx.
Qed.

Lemma accumulate_fits moments micro errors item :
  item_fits moments (length micro) item →
  ∃ micro', accumulate moments (micro, errors) item
            = OK (micro', errors ++ item.2.2).
Proof.
  destruct item as [t [micro_t errors_t]].
  intros (indices & Hindices & Hrows & Hshape). simpl in *.
  destruct (take_total (K := K) micro indices) as (target & Htarget & Hlen1).
  { eapply Forall_impl; [exact Hrows |]. by intros i [? ?]. }
  destruct (take_total (K := K) (market_counts moments) indices)
    as (counts & Hcounts & Hlen2).
  { eapply Forall_impl; [exact Hrows |]. by intros i [? ?]. }
  destruct (broadcast_total (K := K) (λ x c, x ⊘ num_of_int c) num_add
              micro_t counts target) as (quotient & total & Hq & Ht);
    [congruence | by rewrite Hlen2 |].
  exists (put micro indices total). unfold accumulate, getitem.
  rewrite Hindices. simpl. rewrite Htarget. simpl. rewrite Hcounts. simpl.
  rewrite Hq. simpl. by rewrite Ht.
Qed.

Lemma aggregate_OK moments items micro errors micro' errors' :
  aggregate moments items (micro, errors) = OK (micro', errors') →
  errors' = errors ++ collected items
  ∧ length micro' = length micro
  ∧ ∀ i x, micro !! i = Some x →
      micro' !! i = Some (fold_left (normalized moments i) items x).
Proof.
  revert micro errors.
  unfold collected.
  induction items as [|item items IH]; intros micro errors; simpl.
  - intros [= <- <-]. by rewrite app_nil_r.
  - intros ([micro1 errors1] & Hstep & Hrest)%bind_OK.
    apply accumulate_OK in Hstep as (-> & Hlen1 & Hrows).
    apply IH in Hrest as (-> & Hlen & Hrest).
    split; [by rewrite app_assoc |]. split; [congruence |].
    intros i x Hx. by apply Hrest, Hrows.
Qed.

Lemma aggregate_fits moments items micro errors :
  Forall (item_fits moments (length micro)) items →
  ∃ micro', aggregate moments items (micro, errors)
            = OK (micro', errors ++ collected items).
Proof.
  intros Hfits. revert micro errors Hfits. unfold collected.
  induction items as [|item items IH]; intros micro errors Hfits;
    cbn [aggregate].
  - exists micro. simpl. by rewrite app_nil_r.
  - apply Forall_cons in Hfits as [Hitem Hfits].
    destruct (accumulate_fits moments micro errors item Hitem)
      as [micro1 Hstep].
    rewrite Hstep. cbn [mbind Result_bind].
    pose proof (accumulate_OK _ _ _ _ _ _ Hstep) as (_ & Hlen & _).
    rewrite <- Hlen in Hfits.
    destruct (IH micro1 (errors ++ item.2.2) Hfits) as [micro' Hrest].
    exists micro'. rewrite Hrest. simpl. by rewrite app_assoc.
Qed.

End LoopFacts.

(** ** Running the generator and [compute_micro] *)

Section RunFacts.
Context {K : Type} `{Countable K}.
Context {dt : Dtype}.
Context {Error Moment Formulation Integration Parameters : Type}.
Context {collaborators :
  Collaborators (K := K) (Error := Error) (Moment := Moment)
    (Formulation := Formulation) (Integration := Integration)
    (Parameters := Parameters)}.
Implicit Types (self : SimulationResults (K := K)
                         (Formulation := Formulation)
                         (Integration := Integration)
                         (Parameters := Parameters)).
Implicit Types (moments : EconomyMoments (K := K)).
Implicit Types (w : World (K := K) (Error := Error)).

(** The factory reads the heap and changes nothing. *)
Lemma market_factory_run self moments k w :
  market_factory self moments k w
  = ((market_factory self moments k (world_of (Error := Error) (heap w))).1, w).
Proof.
  unfold market_factory, mbind, M_bind, deref, lift, mret, M_ret. simpl.
  destruct (heap w !! r_product_data self) as [panel|]; [| done].
  destruct (getitem _ k) as [rows|]; [| done].
  destruct (take (prices panel) rows) as [prices_s|]; [| done].
  by destruct (take (shares panel) rows) as [shares_s|].
Qed.

Lemma yield_of_run self moments k w :
  yield_of (market_factory self moments) safely_compute_micro k w
  = (item_of self moments (heap w) k, w).
Proof.
  unfold item_of, yield_of, mbind, M_bind.
  rewrite (market_factory_run self moments k w).
  destruct (market_factory self moments k (world_of (Error := Error) (heap w)))
    as [[market|e] w1]; simpl; [| done].
  unfold lift. by destruct (safely_compute_micro market) as [b|e].
Qed.

Lemma step_run self moments k w :
  (_ ← emit (Dispatch k);
   yield_of (market_factory self moments) safely_compute_micro k) w
  = (item_of self moments (heap w) k, dispatched [k] w).
Proof.
  unfold mbind at 1, M_bind, emit. by rewrite yield_of_run.
Qed.

Lemma for_in_cons {X S} (next : M X) rest (body : S → X → Result K S) s w :
  for_in (K := K) (Error := Error) (next :: rest) body s w
  = match next w with
    | (OK x, w1) =>
        match body s x with
        | OK s' => for_in rest body s' w1
        | Raise e => (Raise e, w1)
        end
    | (Raise e, w1) => (Raise e, w1)
    end.
Proof.
  cbn [for_in]. unfold mbind at 1, M_bind.
  destruct (next w) as [[x|e] w1]; [| done].
  unfold mbind, M_bind, lift. by destruct (body s x).
Qed.

Lemma dispatched_cons k keys w :
  dispatched keys (dispatched [k] w) = dispatched (k :: keys) w.
Proof. unfold dispatched. simpl. by rewrite <- app_assoc. Qed.

Lemma for_in_run self moments keys items state state' w :
  comprehension (item_of self moments (heap w)) keys = OK items →
  aggregate moments items state = OK state' →
  for_in
    (generate_items keys (market_factory self moments) safely_compute_micro)
    (accumulate moments) state w
  = (OK state', dispatched keys w).
Proof.
  revert items state w.
  induction keys as [|k keys IH]; intros items state w.
  - intros [= <-] [= <-]. unfold dispatched. simpl.
    rewrite app_nil_r. by destruct w.
  - cbn [comprehension]. intros (item & Hitem & Hrest)%bind_OK.
    apply bind_OK in Hrest as (items' & Hitems & [= <-]).
    cbn [aggregate]. intros (state1 & Hstep & Hloop)%bind_OK.
    unfold generate_items. rewrite fmap_cons, for_in_cons, step_run.
    rewrite Hitem, Hstep, <- (dispatched_cons k keys w).
    by apply (IH items').
Qed.

Lemma for_in_inv self moments keys state state' w :
  (for_in
     (generate_items keys (market_factory self moments) safely_compute_micro)
     (accumulate moments) state w).1 = OK state' →
  ∃ items,
    comprehension (item_of self moments (heap w)) keys = OK items
    ∧ aggregate moments items state = OK state'.
Proof.
  revert state w.
  induction keys as [|k keys IH]; intros state w.
  - intros [= <-]. by exists [].
  - unfold generate_items. rewrite fmap_cons, for_in_cons, step_run.
    destruct (item_of self moments (heap w) k) as [item|e] eqn:Hitem;
      [| done].
    destruct (accumulate moments state item) as [state1|e] eqn:Hstep;
      [| done].
    intros (items & Hitems & Hloop)%IH.
    exists (item :: items). simpl in Hitems. cbn [comprehension].
    rewrite Hitem, Hitems. split; [done |]. cbn [aggregate].
    by rewrite Hstep.
Qed.
End RunFacts.

Section ComputeMicroFacts.
Context {K : Type} `{Countable K}.
Context {dt : Dtype}.
Context {Error Moment Formulation Integration Parameters : Type}.
Context {collaborators :
  Collaborators (K := K) (Error := Error) (Moment := Moment)
    (Formulation := Formulation) (Integration := Integration)
    (Parameters := Parameters)}.
Implicit Types (self : SimulationResults (K := K)
                         (Formulation := Formulation)
                         (Integration := Integration)
                         (Parameters := Parameters)).
Implicit Types (moments : EconomyMoments (K := K)).
Implicit Types (w : World (K := K) (Error := Error)).

Lemma bind_run {A B} (c : M A) (f : A → M B) w :
  (c ≫= f) w
  = match c w with
    | (OK a, w') => f a w'
    | (Raise e, w') => (Raise e, w')
    end.
Proof. done. Qed.

Lemma warn_run errors w :
  warn errors w
  = (OK (),
     {| heap := heap w;
        trace :=
          trace w
          ++ match errors with
             | [] => []
             | _ :: _ => [Output (Text ""); Output (MultipleErrors errors);
                          Output (Text "")]
             end;
        clock := clock w; reads := reads w |}).
Proof.
  destruct errors as [|e errors]; simpl.
  - rewrite app_nil_r. by destruct w.
  - unfold mbind, M_bind, output, emit. simpl. by rewrite <- !app_assoc.
Qed.

(** A run in which validation, every market and every pass of the loop
    body succeed. *)
Lemma compute_micro_run self micro_moments w moments items micro errors :
  EconomyMoments_init (simulation self) micro_moments = OK moments →
  MM moments ≠ 0 →
  comprehension (item_of self moments (heap w))
    (unique_market_ids (simulation self)) = OK items →
  aggregate moments items (np_zeros (MM moments), []) = OK (micro, errors) →
  compute_micro self micro_moments w
  = (OK micro,
     reported moments (unique_market_ids (simulation self)) errors w).
Proof.
  intros Hinit HMM Hitems Hloop. unfold compute_micro.
  rewrite bind_run. cbn [output emit heap trace clock reads]. rewrite bind_run. cbn [time_time heap trace clock reads].
  rewrite bind_run. unfold lift at 1. rewrite Hinit.
  rewrite decide_False by done.
  rewrite bind_run. cbn [output emit heap trace clock reads]. rewrite bind_run. cbn [output emit heap trace clock reads].
  rewrite bind_run.
  erewrite for_in_run; [| exact Hitems | exact Hloop].
  rewrite bind_run, warn_run. cbn [heap trace clock reads].
  rewrite bind_run. cbn [time_time heap trace clock reads].
  rewrite bind_run. cbn [output emit heap trace clock reads]. rewrite bind_run. cbn [output emit heap trace clock reads].
  rewrite bind_run. cbn [output emit heap trace clock reads].
  unfold reported, dispatched, mret, M_ret. simpl. do 2 f_equal.
  by rewrite <- !app_assoc.
Qed.

Lemma compute_micro_inv self micro_moments w micro :
  (compute_micro self micro_moments w).1 = OK micro →
  ∃ moments items errors,
    EconomyMoments_init (simulation self) micro_moments = OK moments
    ∧ MM moments ≠ 0
    ∧ comprehension (item_of self moments (heap w))
        (unique_market_ids (simulation self)) = OK items
    ∧ aggregate moments items (np_zeros (MM moments), [])
      = OK (micro, errors).
Proof.
  unfold compute_micro.
  rewrite bind_run. cbn [output emit heap trace clock reads]. rewrite bind_run. cbn [time_time heap trace clock reads].
  rewrite bind_run. unfold lift at 1.
  destruct (EconomyMoments_init _ _) as [moments|e] eqn:Hinit; [| done].
  case_decide as HMM; [done |].
  rewrite bind_run. cbn [output emit heap trace clock reads]. rewrite bind_run. cbn [output emit heap trace clock reads].
  rewrite bind_run.
  match goal with
  | |- context [for_in ?g ?b ?s ?w1] =>
      destruct (for_in g b s w1) as [[[micro' errors]|e] w2] eqn:Hfor;
      [| done]
  end.
  apply (f_equal fst) in Hfor. apply for_in_inv in Hfor as (items & Hitems & Hloop).
  rewrite bind_run, warn_run. cbn [heap trace clock reads].
  rewrite bind_run. cbn [time_time heap trace clock reads].
  rewrite bind_run. cbn [output emit heap trace clock reads]. rewrite bind_run. cbn [output emit heap trace clock reads].
  rewrite bind_run. cbn [output emit heap trace clock reads]. intros [= <-].
  by exists moments, items, errors.
Qed.
End ComputeMicroFacts.

(** ** Running the constructor *)

Section InitFacts.
Context {K : Type} `{Countable K}.
Context {dt : Dtype}.
Context {Error Moment Formulation Integration Parameters : Type}.
Context {collaborators :
  Collaborators (K := K) (Error := Error) (Moment := Moment)
    (Formulation := Formulation) (Integration := Integration)
    (Parameters := Parameters)}.
Implicit Types (w : World (K := K) (Error := Error)).
Implicit Types (sim : Simulation (K := K) (Formulation := Formulation)
                        (Integration := Integration)
                        (Parameters := Parameters)).

Lemma fresh_loc_ne w l (a : RecArray) :
  heap w !! l = Some a → l ≠ fresh (dom (heap w)).
Proof.
  intros Hl Heq. apply (is_fresh (dom (heap w))). rewrite <- Heq.
  apply elem_of_dom. by eexists.
Qed.

(** The constructor, step by step: the copy is a new object, the two
    assignments write into it, and everything after them is computed
    from values without touching the heap. *)
Lemma init_eq sim prices' shares' start_time end_time iteration_stats w :
  __init__ sim prices' shares' start_time end_time iteration_stats w
  = match heap w !! product_data sim with
    | None => (Raise (OtherError "dangling reference"), w)
    | Some panel =>
        let data := fresh (dom (heap w)) in
        match setfield (prices panel) prices' with
        | Raise e => (Raise e, with_heap w (<[data := panel]> (heap w)))
        | OK p =>
            let overlaid1 :=
              {| prices := p; shares := shares panel;
                 columns := columns panel |} in
            match setfield (shares panel) shares' with
            | Raise e =>
                (Raise e, with_heap w (<[data := overlaid1]> (heap w)))
            | OK s =>
                let overlaid :=
                  {| prices := p; shares := s;
                     columns := columns panel |} in
                let ids := unique_market_ids sim in
                (X1 ← _compute_true_X1 sim panel prices';
                 Xb ← matmul X1 (beta sim);
                 delta ← broadcast num_add Xb (xi sim);
                 fp_converged ← diagnostics converged iteration_stats ids;
                 its ← diagnostics iterations iteration_stats ids;
                 fp_iterations ← np_array_int its;
                 evs ← diagnostics evaluations iteration_stats ids;
                 contraction_evaluations ← np_array_int evs;
                 OK {| simulation := sim;
                       r_product_data := data;
                       delta := delta;
                       computation_time := (end_time - start_time)%float;
                       fp_converged := fp_converged;
                       fp_iterations := fp_iterations;
                       contraction_evaluations := contraction_evaluations |},
                 with_heap w (<[data := overlaid]> (heap w)))
            end
        end
    end.
Proof.
  unfold __init__, copy. rewrite bind_run, bind_run. unfold deref at 1.
  destruct (heap w !! product_data sim) as [panel|] eqn:Hpanel; [| done].
  pose proof (fresh_loc_ne w _ _ Hpanel) as Hfresh.
  unfold alloc at 1. cbn zeta. cbn [heap trace clock reads].
  unfold set_prices. rewrite bind_run, bind_run. unfold deref at 1.
  cbn [heap trace clock reads]. rewrite lookup_insert_eq.
  rewrite bind_run. unfold lift at 1.
  destruct (setfield (prices panel) prices') as [p|e]; [| done].
  unfold store at 1. cbn [heap trace clock reads].
  rewrite insert_insert_eq.
  unfold set_shares. rewrite bind_run, bind_run. unfold deref at 1.
  cbn [heap trace clock reads]. rewrite lookup_insert_eq.
  rewrite bind_run. unfold lift at 1. cbn [prices shares columns].
  destruct (setfield (shares panel) shares') as [s|e]; [| done].
  unfold store at 1. cbn [heap trace clock reads].
  rewrite insert_insert_eq.
  rewrite bind_run. unfold deref at 1. cbn [heap trace clock reads].
  rewrite lookup_insert_ne by done. rewrite Hpanel.
  unfold with_heap.
  repeat (rewrite bind_run; unfold lift at 1;
          match goal with
          | |- match ?r with OK _ => _ | Raise _ => _ end = _ =>
              destruct r; cbn [mbind Result_bind]; [| done]
          end).
  done.
Qed.
End InitFacts.

(** ** The constructor: diagnostics, panel and elapsed time *)

Section Constructor.
Context {K : Type} `{Countable K}.
Context {dt : Dtype}.
Context {Error Moment Formulation Integration Parameters : Type}.
Context {collaborators :
  Collaborators (K := K) (Error := Error) (Moment := Moment)
    (Formulation := Formulation) (Integration := Integration)
    (Parameters := Parameters)}.
Implicit Types (w : World (K := K) (Error := Error)).
Implicit Types (sim : Simulation (K := K) (Formulation := Formulation)
                        (Integration := Integration)
                        (Parameters := Parameters)).
Implicit Types (iteration_stats : gmap K SolverStats).

Lemma diagnostics_OK {A} (field : SolverStats → A) iteration_stats ids l :
  diagnostics field iteration_stats ids = OK l
  ↔ Forall2 (λ t x, ∃ st, iteration_stats !! t = Some st ∧ x = field st)
      ids l.
Proof.
  unfold diagnostics. rewrite comprehension_OK.
  split; intros Hall; (eapply Forall2_impl; [exact Hall |]);
    intros t x; unfold getitem; simpl;
    destruct (iteration_stats !! t) as [st|]; simpl.
  - intros [= <-]. by exists st.
  - done.
  - by intros (st' & [= <-] & ->).
  - by intros (st' & [=] & _).
Qed.

Lemma diagnostics_missing {A} (field : SolverStats → A) iteration_stats
    ids t :
  t ∈ ids → iteration_stats !! t = None →
  ∃ t0, t0 ∈ ids ∧ iteration_stats !! t0 = None
        ∧ diagnostics field iteration_stats ids = Raise (KeyError t0).
Proof.
  intros Hin Ht. unfold diagnostics.
  destruct (comprehension_Raise
              (λ t, st ← getitem iteration_stats t; OK (field st))
              ids t (KeyError t) Hin) as (t0 & e0 & Hin0 & Hf0 & ->).
  { unfold getitem. by rewrite Ht. }
  exists t0. unfold getitem in Hf0.
  destruct (iteration_stats !! t0) as [st|]; [done |].
  by injection Hf0 as <-.
Qed.

Lemma np_array_int_OK (values l : list Z) :
  np_array_int (K := K) values = OK l → l = values.
Proof.
  unfold np_array_int. rewrite comprehension_OK.
  induction 1 as [|z z' values l Hz _ IH]; [done |].
  case_decide; [| done]. injection Hz as <-. by rewrite IH.
Qed.

(** What a successful construction has gone through. *)
Lemma init_inv sim prices' shares' start_time end_time iteration_stats w r :
  (__init__ sim prices' shares' start_time end_time iteration_stats w).1
  = OK r →
  ∃ panel p s,
    heap w !! product_data sim = Some panel
    ∧ setfield (K := K) (prices panel) prices' = OK p
    ∧ setfield (K := K) (shares panel) shares' = OK s
    ∧ (__init__ sim prices' shares' start_time end_time iteration_stats w).2
      = with_heap w
          (<[fresh (dom (heap w)) :=
               {| prices := p; shares := s; columns := columns panel |}]>
             (heap w))
    ∧ simulation r = sim
    ∧ r_product_data r = fresh (dom (heap w))
    ∧ computation_time r = (end_time - start_time)%float
    ∧ diagnostics converged iteration_stats (unique_market_ids sim)
      = OK (fp_converged r)
    ∧ diagnostics iterations iteration_stats (unique_market_ids sim)
      = OK (fp_iterations r)
    ∧ diagnostics evaluations iteration_stats (unique_market_ids sim)
      = OK (contraction_evaluations r).
Proof.
  rewrite init_eq.
  destruct (heap w !! product_data sim) as [panel|] eqn:Hpanel; [| done].
  destruct (setfield (prices panel) prices') as [p|] eqn:Hp; [| done].
  destruct (setfield (shares panel) shares') as [s|] eqn:Hs; [| done].
  cbn [fst snd].
  intros (X1 & _ & Hr)%bind_OK.
  apply bind_OK in Hr as (Xb & _ & Hr).
  apply bind_OK in Hr as (delta' & _ & Hr).
  apply bind_OK in Hr as (conv & Hconv & Hr).
  apply bind_OK in Hr as (its & Hits & Hr).
  apply bind_OK in Hr as (its' & ->%np_array_int_OK & Hr).
  apply bind_OK in Hr as (evs & Hevs & Hr).
  apply bind_OK in Hr as (evs' & ->%np_array_int_OK & [= <-]).
  by exists panel, p, s.
Qed.

(** C3: in every constructed [SimulationResults] the three diagnostic
    vectors have one entry per market identifier of the simulation, and
    entry [i] of each is the statistic that [iteration_stats] holds for
    the [i]-th identifier of [unique_market_ids]. *)
Theorem diagnostic_vectors_follow_market_ids sim prices' shares'
    start_time end_time iteration_stats w r :
  (__init__ sim prices' shares' start_time end_time iteration_stats w).1
  = OK r →
  let ids := unique_market_ids (simulation r) in
  length (fp_converged r) = length ids
  ∧ length (fp_iterations r) = length ids
  ∧ length (contraction_evaluations r) = length ids
  ∧ ∀ i t, ids !! i = Some t →
      ∃ st, iteration_stats !! t = Some st
            ∧ fp_converged r !! i = Some (converged st)
            ∧ fp_iterations r !! i = Some (iterations st)
            ∧ contraction_evaluations r !! i = Some (evaluations st).
Proof.
  intros (panel & p & s & _ & _ & _ & _ & -> & _ & _
          & Hconv%diagnostics_OK & Hits%diagnostics_OK
          & Hevs%diagnostics_OK)%init_inv.
  cbn zeta.
  repeat split; try (symmetry; by eapply Forall2_length).
  intros i t Ht.
  destruct (Forall2_lookup_l _ _ _ _ _ Hconv Ht)
    as (c & Hc & st & Hst & ->).
  destruct (Forall2_lookup_l _ _ _ _ _ Hits Ht)
    as (n & Hn & st1 & Hst1 & ->).
  destruct (Forall2_lookup_l _ _ _ _ _ Hevs Ht)
    as (m & Hm & st2 & Hst2 & ->).
  exists st. by simplify_eq.
Qed.

(** C8: when [iteration_stats] has no entry for some market identifier of
    the simulation, the constructor raises and builds no results: the
    first comprehension over [unique_market_ids] raises [KeyError] at the
    first identifier without an entry, unless an earlier line has already
    raised. *)
Theorem missing_stats_entry_raises sim prices' shares' start_time end_time
    iteration_stats w t :
  t ∈ unique_market_ids sim →
  iteration_stats !! t = None →
  (∃ e,
     (__init__ sim prices' shares' start_time end_time iteration_stats w).1
     = Raise e)
  ∧ ∃ t0, t0 ∈ unique_market_ids sim
          ∧ iteration_stats !! t0 = None
          ∧ diagnostics converged iteration_stats (unique_market_ids sim)
            = Raise (KeyError t0).
Proof.
  intros Hin Ht. split; [| by apply diagnostics_missing with t].
  destruct (__init__ _ _ _ _ _ _ _).1 as [r|e] eqn:Hinit; [| by exists e].
  apply init_inv in Hinit
    as (_ & _ & _ & _ & _ & _ & _ & _ & _ & _ & Hconv & _).
  destruct (diagnostics_missing converged iteration_stats _ t Hin Ht)
    as (t0 & _ & _ & Hraise).
  congruence.
Qed.

(** C5 (amended): the constructor reports the floating-point difference
    [end_time - start_time] and checks no sign: with any other pair of
    timestamps, in either order, the construction succeeds just the same
    and reports their difference. *)
Theorem computation_time_is_difference sim prices' shares' start_time
    end_time iteration_stats w r :
  (__init__ sim prices' shares' start_time end_time iteration_stats w).1
  = OK r →
  computation_time r = (end_time - start_time)%float
  ∧ ∀ start_time' end_time',
      ∃ r',
        (__init__ sim prices' shares' start_time' end_time'
           iteration_stats w).1 = OK r'
        ∧ computation_time r' = (end_time' - start_time')%float.
Proof.
  intros Hinit.
  split.
  { by destruct (init_inv _ _ _ _ _ _ _ _ Hinit)
      as (panel & p & s & _ & _ & _ & _ & _ & _ & Htime & _). }
  intros start_time' end_time'. revert Hinit. rewrite !init_eq.
  destruct (heap w !! product_data sim) as [panel|]; [| done].
  destruct (setfield (prices panel) prices') as [p|]; [| done].
  destruct (setfield (shares panel) shares') as [s|]; [| done].
  cbn [fst snd].
  destruct (_compute_true_X1 _ _ _) as [X1|]; [| done]. cbn [mbind Result_bind].
  destruct (matmul _ _) as [Xb|]; [| done]. cbn [mbind Result_bind].
  destruct (broadcast _ _ _) as [delta'|]; [| done]. cbn [mbind Result_bind].
  destruct (diagnostics converged _ _) as [conv|]; [| done].
  cbn [mbind Result_bind].
  destruct (diagnostics iterations _ _) as [its|]; [| done].
  cbn [mbind Result_bind].
  destruct (np_array_int its) as [its'|]; [| done]. cbn [mbind Result_bind].
  destruct (diagnostics evaluations _ _) as [evs|]; [| done].
  cbn [mbind Result_bind].
  destruct (np_array_int evs) as [evs'|]; [| done]. cbn [mbind Result_bind].
  intros _. by eexists.
Qed.

(** C4: the constructor leaves every object that was on the heap before
    the call as it was, the simulation's panel among them, whether or not
    the construction succeeds; the results hold a new object, which is the
    simulation's panel with the price and share columns overwritten. *)
Theorem overlay_leaves_simulation_panel sim prices' shares' start_time
    end_time iteration_stats w panel :
  heap w !! product_data sim = Some panel →
  let out :=
    __init__ sim prices' shares' start_time end_time iteration_stats w in
  heap out.2 !! product_data sim = Some panel
  ∧ (∀ l a, heap w !! l = Some a → heap out.2 !! l = Some a)
  ∧ ∀ r, out.1 = OK r →
      r_product_data r ≠ product_data sim
      ∧ heap w !! r_product_data r = None
      ∧ ∃ p s,
          setfield (K := K) (prices panel) prices' = OK p
          ∧ setfield (K := K) (shares panel) shares' = OK s
          ∧ heap out.2 !! r_product_data r
            = Some {| prices := p; shares := s;
                      columns := columns panel |}.
Proof.
  intros Hpanel out.
  assert (∀ l a, heap w !! l = Some a → heap out.2 !! l = Some a)
    as Hkept.
  { intros l a Hl. pose proof (fresh_loc_ne w l a Hl) as Hne.
    subst out. rewrite init_eq, Hpanel. cbn zeta.
    destruct (setfield (prices panel) prices') as [p|];
      [| by cbn; rewrite lookup_insert_ne].
    destruct (setfield (shares panel) shares') as [s|];
      by cbn; rewrite lookup_insert_ne. }
  split; [by apply Hkept |]. split; [done |].
  intros r (panel' & p & s & Hpanel' & Hp & Hs & Hout & _ & Hdata & _)%init_inv.
  assert (panel' = panel) as -> by congruence.
  rewrite Hdata. split; [symmetry; by eapply fresh_loc_ne |].
  split; [apply not_elem_of_dom, is_fresh |].
  exists p, s. split; [done |]. split; [done |].
  subst out. rewrite Hout. cbn. by rewrite lookup_insert_eq.
Qed.
End Constructor.

(** ** Order of the items *)

Section OrderFacts.
Context {K : Type} `{Countable K}.
Context {dt : Dtype}.
Context {Error : Type}.
Implicit Types (moments : EconomyMoments (K := K)).
Implicit Types (micro : Array) (errors : list Error).
Implicit Types (item : K * (Array * list Error)).

Lemma fold_left_permutation {A B} (f : A → B → A) (l l' : list B) a :
  (∀ a x y, f (f a x) y = f (f a y) x) →
  l ≡ₚ l' → fold_left f l a = fold_left f l' a.
Proof.
  intros Hf Hperm. revert a.
  induction Hperm as [|x l l' _ IH|x y l|l l1 l' _ IH1 _ IH2]; intros a;
    simpl.
  - done.
  - apply IH.
  - by rewrite Hf.
  - by rewrite IH1.
Qed.

Lemma collected_permutation (items items' : list (K * (Array * list Error))) :
  items ≡ₚ items' → collected items ≡ₚ collected items'.
Proof.
  unfold collected.
  induction 1 as [|x l l' _ IH|x y l|l l1 l' _ IH1 _ IH2]; simpl.
  - done.
  - by rewrite IH.
  - rewrite !app_assoc. f_equiv. apply Permutation_app_comm.
  - by rewrite IH1.
Qed.

Lemma accumulate_OK_fits moments micro errors item state' :
  accumulate moments (micro, errors) item = OK state' →
  item_fits moments (length micro) item.
Proof.
  destruct item as [t [micro_t errors_t]]. unfold accumulate.
  intros (indices & Hindices & Hstep)%bind_OK.
  apply bind_OK in Hstep as (target & Htarget & Hstep).
  apply bind_OK in Hstep as (counts & Hcounts & Hstep).
  apply bind_OK in Hstep as (quotient & Hquotient & Hstep).
  apply bind_OK in Hstep as (total & Htotal & _).
  unfold getitem in Hindices.
  destruct (market_indices moments !! t) as [indices'|] eqn:Hlookup;
    [| done]. injection Hindices as ->.
  apply take_OK in Htarget, Hcounts.
  pose proof (Forall2_length _ _ _ Htarget) as Hlen1.
  pose proof (Forall2_length _ _ _ Hcounts) as Hlen2.
  assert (length target = length counts) as Hlen by congruence.
  destruct (broadcast_spread _ _ _ _ _ _ _ Hlen Hquotient Htotal)
    as [Hshape _].
  exists indices. split; [done |]. split; [| by rewrite Hlen2].
  apply Forall_forall. intros i Hi.
  apply list_elem_of_lookup in Hi as [j Hj].
  destruct (Forall2_lookup_l _ _ _ _ _ Htarget Hj) as (x & _ & Hx).
  destruct (Forall2_lookup_l _ _ _ _ _ Hcounts Hj) as (c & _ & Hc).
  split; by eapply lookup_lt_Some.
Qed.

Lemma aggregate_OK_fits moments items micro errors state' :
  aggregate moments items (micro, errors) = OK state' →
  Forall (item_fits moments (length micro)) items.
Proof.
  revert micro errors.
  induction items as [|item items IH]; intros micro errors;
    cbn [aggregate]; [done |].
  intros ([micro1 errors1] & Hstep & Hrest)%bind_OK.
  constructor; [by eapply accumulate_OK_fits |].
  apply accumulate_OK in Hstep as (_ & <- & _). by eapply IH.
Qed.

Lemma normalized_swap moments i (x : num) item1 item2 :
  (∀ x y : num, x ⊕ y = y ⊕ x) →
  (∀ x y z : num, x ⊕ (y ⊕ z) = (x ⊕ y) ⊕ z) →
  normalized moments i (normalized moments i x item1) item2
  = normalized moments i (normalized moments i x item2) item1.
Proof.
  intros Hcomm Hassoc. unfold normalized.
  destruct (raw_contribution moments item1 i) as [r1|],
    (raw_contribution moments item2 i) as [r2|]; try done.
  by rewrite <- !Hassoc, (Hcomm (r1 ⊘ _)).
Qed.

(** C7 (amended): when the addition of the element type is commutative
    and associative, as in exact arithmetic, the loop run on any
    permutation of the items succeeds exactly when it succeeds on the
    items and produces the same vector, with the soft errors permuted. *)
Theorem aggregate_permutation moments items items' micro0 errors0
    micro errors :
  (∀ x y : num, x ⊕ y = y ⊕ x) →
  (∀ x y z : num, x ⊕ (y ⊕ z) = (x ⊕ y) ⊕ z) →
  items ≡ₚ items' →
  aggregate moments items (micro0, errors0) = OK (micro, errors) →
  ∃ errors',
    aggregate moments items' (micro0, errors0) = OK (micro, errors')
    ∧ errors ≡ₚ errors'.
Proof.
  intros Hcomm Hassoc Hperm Hloop.
  pose proof (aggregate_OK_fits _ _ _ _ _ Hloop) as Hfits.
  rewrite Hperm in Hfits.
  destruct (aggregate_fits moments items' micro0 errors0 Hfits)
    as [micro' Hloop'].
  apply aggregate_OK in Hloop as (-> & Hlen & Hrows).
  pose proof (aggregate_OK _ _ _ _ _ _ Hloop') as (_ & Hlen' & Hrows').
  exists (errors0 ++ collected items'). split.
  - rewrite Hloop'. do 2 f_equal. apply list_eq. intros i.
    destruct (micro0 !! i) as [x|] eqn:Hx.
    + rewrite (Hrows i x Hx), (Hrows' i x Hx). f_equal.
      symmetry. apply fold_left_permutation; [| done].
      intros a item1 item2. by apply normalized_swap.
    + apply lookup_ge_None in Hx.
      rewrite !(proj2 (lookup_ge_None _ _)); [done | lia..].
  - f_equiv. by apply collected_permutation.
Qed.
End OrderFacts.

(** ** [to_problem] *)

Section ToProblem.
Context {K : Type} `{Countable K}.
Context {dt : Dtype}.
Context {Formulation Integration Parameters : Type}.
Implicit Types (self : SimulationResults (K := K)
                         (Formulation := Formulation)
                         (Integration := Integration)
                         (Parameters := Parameters)).

(** C9 (amended): an unspecified formulation, panel, agent formulation or
    agent data defaults to the field held by the simulation or, for the
    panel, by the results; the integration rule has no default and is
    handed to [Problem] as it was given, unspecified when it was left
    unspecified. *)
Theorem to_problem_defaults self product_formulations' product_data'
    agent_formulation' agent_data' integration' :
  let problem :=
    to_problem self product_formulations' product_data' agent_formulation'
      agent_data' integration' in
  p_product_formulations problem
  = default (product_formulations (simulation self)) product_formulations'
  ∧ p_product_data problem = default (r_product_data self) product_data'
  ∧ p_agent_formulation problem
    = from_option Some (agent_formulation (simulation self))
        agent_formulation'
  ∧ p_agent_data problem
    = from_option Some (agent_data (simulation self)) agent_data'
  ∧ p_integration problem = integration'.
Proof.
  by destruct product_formulations', product_data', agent_formulation',
    agent_data'.
Qed.
End ToProblem.

(** ** [compute_micro] *)

Section ComputeMicro.
Context {K : Type} `{Countable K}.
Context {dt : Dtype}.
Context {Error Moment Formulation Integration Parameters : Type}.
Context {collaborators :
  Collaborators (K := K) (Error := Error) (Moment := Moment)
    (Formulation := Formulation) (Integration := Integration)
    (Parameters := Parameters)}.
Implicit Types (self : SimulationResults (K := K)
                         (Formulation := Formulation)
                         (Integration := Integration)
                         (Parameters := Parameters)).
Implicit Types (moments : EconomyMoments (K := K)).
Implicit Types (w : World (K := K) (Error := Error)).

Lemma item_of_key self moments h k item :
  item_of (Error := Error) self moments h k = OK item → item.1 = k.
Proof.
  unfold item_of, yield_of. rewrite bind_run.
  destruct (market_factory _ _ _ _) as [[market|e] w1]; [| done].
  rewrite bind_run. unfold lift at 1.
  destruct (safely_compute_micro market) as [b|e]; [| done].
  by intros [= <-].
Qed.

Lemma items_keys self moments h keys items :
  comprehension (item_of (Error := Error) self moments h) keys = OK items →
  items.*1 = keys.
Proof.
  rewrite comprehension_OK.
  induction 1 as [|k item keys items Hitem _ IH]; [done |].
  cbn [fmap list_fmap]. by rewrite IH, (item_of_key _ _ _ _ _ Hitem).
Qed.

Lemma np_zeros_lookup n i :
  i < n → np_zeros n !! i = Some num_zero.
Proof. intros Hi. by apply lookup_replicate_2. Qed.

(** C1 (amended): every entry of the vector that [compute_micro] returns
    is the sum, in the order of the markets and from the initial zero, of
    each contributing market's raw contribution divided by the count that
    [market_counts] holds for the row of the moment; the count belongs to
    the moment and is the same for every market. With two contributing
    markets, raw contributions [R1] and [R2] and row count [C], the entry
    is [(0 + R1 / C) + R2 / C]. *)
Theorem compute_micro_divides_by_row_count self micro_moments w micro :
  (compute_micro self micro_moments w).1 = OK micro →
  ∃ moments items,
    EconomyMoments_init (simulation self) micro_moments = OK moments
    ∧ comprehension (item_of self moments (heap w))
        (unique_market_ids (simulation self)) = OK items
    ∧ items.*1 = unique_market_ids (simulation self)
    ∧ length micro = MM moments
    ∧ (∀ i, i < MM moments →
         micro !! i = Some (normalized_sum moments items i))
    ∧ (∀ i item1 item2 R1 R2,
         i < MM moments →
         items = [item1; item2] →
         raw_contribution moments item1 i = Some R1 →
         raw_contribution moments item2 i = Some R2 →
         micro !! i
         = Some ((num_zero ⊕ R1 ⊘ row_count moments i)
                 ⊕ R2 ⊘ row_count moments i)).
Proof.
  intros (moments & items & errors & Hinit & HMM & Hitems & Hloop)
    %compute_micro_inv.
  apply aggregate_OK in Hloop as (_ & Hlen & Hrows).
  unfold np_zeros in Hlen. rewrite length_replicate in Hlen.
  assert (∀ i, i < MM moments →
            micro !! i = Some (normalized_sum moments items i)) as Hsum.
  { intros i Hi. by apply Hrows, np_zeros_lookup. }
  exists moments, items. split_and!; try done.
  - by eapply items_keys.
  - intros i item1 item2 R1 R2 Hi -> HR1 HR2. rewrite (Hsum i Hi).
    unfold normalized_sum. cbn [fold_left]. unfold normalized.
    by rewrite HR1, HR2.
Qed.

(** C10: in the vector of a successful [compute_micro], which has one
    entry per moment, every entry whose row is in the index set of no
    market of the simulation is the zero the accumulator started with. *)
Theorem untouched_rows_are_zero self micro_moments w micro :
  (compute_micro self micro_moments w).1 = OK micro →
  ∃ moments,
    EconomyMoments_init (simulation self) micro_moments = OK moments
    ∧ length micro = MM moments
    ∧ ∀ i,
        i < MM moments →
        (∀ t indices,
           t ∈ unique_market_ids (simulation self) →
           market_indices moments !! t = Some indices → i ∉ indices) →
        micro !! i = Some num_zero.
Proof.
  intros (moments & items & errors & Hinit & HMM & Hitems & Hloop)
    %compute_micro_inv.
  apply aggregate_OK in Hloop as (_ & Hlen & Hrows).
  unfold np_zeros in Hlen. rewrite length_replicate in Hlen.
  exists moments. split_and!; try done.
  intros i Hi Hout. rewrite (Hrows i num_zero) by by apply np_zeros_lookup.
  f_equal. apply items_keys in Hitems.
  assert (Forall (λ item, item.1 ∈ unique_market_ids (simulation self))
            items) as Hkeys.
  { apply Forall_forall. intros item Hitem. rewrite <- Hitems.
    by apply list_elem_of_fmap_2. }
  clear Hitems Hrows. generalize (num_zero). 
  induction Hkeys as [|item items Hkey _ IH]; intros x; [done |].
  cbn [fold_left]. unfold normalized at 2, raw_contribution.
  destruct (market_indices moments !! item.1) as [indices|] eqn:Hidx;
    [| apply IH].
  rewrite contribution_None by by eapply Hout. apply IH.
Qed.

(** C2 (amended): with an empty list of micro moments [compute_micro]
    raises the [ValueError] of the validation before any market is
    dispatched; by then it has emitted its opening progress message and
    read the clock once, and it has changed nothing on the heap. *)
Theorem compute_micro_no_moments self w :
  compute_micro self [] w
  = (Raise (ValueError "At least one micro moment should be specified."),
     {| heap := heap w;
        trace :=
          trace w ++ [Output (Text "Computing micro moment values ...")];
        clock := clock w;
        reads := S (reads w) |}).
Proof.
  unfold compute_micro.
  rewrite bind_run. cbn [output emit heap trace clock reads].
  rewrite bind_run. cbn [time_time heap trace clock reads].
  by rewrite bind_run.
Qed.

Lemma warnings_dispatch (keys : list K) :
  warnings (Error := Error) (Dispatch <$> keys) = [].
Proof. induction keys as [|k keys IH]; [done | by cbn]. Qed.

Lemma warnings_app (events1 events2 : list (Event (K := K) (Error := Error))) :
  warnings (events1 ++ events2) = warnings events1 ++ warnings events2.
Proof. apply omap_app. Qed.

(** C6 (amended): when validation and every market computation return and
    every partial result fits the moment vector, [compute_micro] returns the
    vector even though some market reports soft errors. Every entry is the
    sum of the normalized partial results of all markets: the partial
    result that a market returns together with its soft errors is added
    like any other. The output has exactly one more aggregate warning,
    which carries the soft errors of all markets and comes after the last
    market has been dispatched. *)
Theorem soft_errors_one_warning self micro_moments w moments items :
  EconomyMoments_init (simulation self) micro_moments = OK moments →
  MM moments ≠ 0 →
  comprehension (item_of self moments (heap w))
    (unique_market_ids (simulation self)) = OK items →
  Forall (item_fits moments (MM moments)) items →
  (∃ item, item ∈ items ∧ item.2.2 ≠ []) →
  ∃ micro w',
    compute_micro self micro_moments w = (OK micro, w')
    ∧ length micro = MM moments
    ∧ (∀ i, i < MM moments →
         micro !! i = Some (normalized_sum moments items i))
    ∧ collected items ≠ []
    ∧ warnings (trace w') = warnings (trace w) ++ [collected items]
    ∧ trace w'
      = trace w
        ++ [Output (Text "Computing micro moment values ...");
            Output (Text ""); Output (Formatted moments "Micro Moments")]
        ++ (Dispatch <$> unique_market_ids (simulation self))
        ++ [Output (Text ""); Output (MultipleErrors (collected items));
            Output (Text ""); Output (Text "");
            Output (FinishedAfter
                      (clock w (S (reads w)) - clock w (reads w))%float);
            Output (Text "")].
Proof.
  intros Hinit HMM Hitems Hfits (item & Hitem & Herrors).
  destruct (aggregate_fits moments items (np_zeros (MM moments)) [])
    as [micro Hloop].
  { unfold np_zeros. by rewrite length_replicate. }
  cbn [app] in Hloop.
  assert (collected items ≠ []) as Hsome.
  { unfold collected. intros Hnil.
    apply list_elem_of_split in Hitem as (l1 & l2 & ->).
    rewrite fmap_app, concat_app in Hnil.
    apply app_eq_nil in Hnil as [_ Hnil]. cbn in Hnil.
    by apply app_eq_nil in Hnil as [? _]. }
  exists micro, (reported moments (unique_market_ids (simulation self))
                   (collected items) w).
  split; [by apply compute_micro_run with items |].
  apply aggregate_OK in Hloop as (_ & Hlen & Hrows).
  unfold np_zeros in Hlen. rewrite length_replicate in Hlen.
  split; [done |]. split.
  { intros i Hi. by apply Hrows, np_zeros_lookup. }
  split; [done |].
  unfold reported. cbn [trace].
  destruct (collected items) as [|e errors] eqn:Hcollected; [done |].
  split; [| done].
  rewrite !warnings_app, warnings_dispatch.
  done.
Qed.
End ComputeMicro.

(** ** The claims on the small economy *)

Module ExampleFacts.
Import Example.

Lemma float_zero_one : 0%float ≠ 1%float.
Proof.
  intros Heq. apply (f_equal Prim2SF) in Heq. vm_compute in Heq.
  discriminate.
Qed.

(** The constructor on the example yields three vectors of two entries;
    the second entries are the statistics of market ["b"]. *)
Lemma diagnostic_vectors_witness :
  length (fp_converged results0) = 2
  ∧ length (fp_iterations results0) = 2
  ∧ length (contraction_evaluations results0) = 2
  ∧ ∃ st, stats0 !! "b" = Some st
          ∧ fp_converged results0 !! 1 = Some (converged st)
          ∧ fp_iterations results0 !! 1 = Some (iterations st)
          ∧ contraction_evaluations results0 !! 1 = Some (evaluations st).
Proof.
  destruct (diagnostic_vectors_follow_market_ids (collaborators := collab64)
              sim0 [1; 2; 3]%float [0.25; 0.25; 0.5]%float 0%float 1%float
              stats0 w0 results0)
    as (Hc & Hi & He & Hentries).
  { vm_compute. reflexivity. }
  split; [exact Hc |]. split; [exact Hi |]. split; [exact He |].
  apply (Hentries 1 "b"). reflexivity.
Defined.

(** Without the entry of market ["b"] the constructor raises. *)
Lemma missing_stats_entry_witness :
  (∃ e,
     (__init__ (collaborators := collab64) sim0 [1; 2; 3]%float
        [0.25; 0.25; 0.5]%float 0%float 1%float stats_a w0).1 = Raise e)
  ∧ ∃ t0, t0 ∈ unique_market_ids sim0
          ∧ stats_a !! t0 = None
          ∧ diagnostics converged stats_a (unique_market_ids sim0)
            = Raise (KeyError t0).
Proof.
  apply (missing_stats_entry_raises (collaborators := collab64) sim0
           [1; 2; 3]%float [0.25; 0.25; 0.5]%float 0%float 1%float
           stats_a w0 "b").
  - simpl. apply elem_of_cons. right. apply elem_of_cons. by left.
  - vm_compute. reflexivity.
Defined.

(** The simulation's panel still has its zero prices and shares after the
    construction; the results hold the overlaid copy at a new address. *)
Lemma overlay_witness :
  let out :=
    __init__ (collaborators := collab64) sim0 [1; 2; 3]%float
      [0.25; 0.25; 0.5]%float 0%float 1%float stats0 w0 in
  heap out.2 !! product_data sim0 = Some panel0
  ∧ (∀ l a, heap w0 !! l = Some a → heap out.2 !! l = Some a)
  ∧ ∀ r, out.1 = OK r →
      r_product_data r ≠ product_data sim0
      ∧ heap w0 !! r_product_data r = None
      ∧ ∃ p s,
          setfield (K := string) (prices panel0) [1; 2; 3]%float = OK p
          ∧ setfield (K := string) (shares panel0)
              [0.25; 0.25; 0.5]%float = OK s
          ∧ heap out.2 !! r_product_data r
            = Some {| prices := p; shares := s;
                      columns := columns panel0 |}.
Proof.
  apply (overlay_leaves_simulation_panel (collaborators := collab64) sim0
           [1; 2; 3]%float [0.25; 0.25; 0.5]%float 0%float 1%float stats0
           w0 panel0).
  vm_compute. reflexivity.
Defined.

(** C5, counterexample: the end timestamp lies before the start timestamp
    and the constructor returns results with a negative
    [computation_time]. *)
Lemma negative_elapsed_time_accepted :
  ∃ r,
    (__init__ (collaborators := collab64) sim0 [1; 2; 3]%float
       [0.25; 0.25; 0.5]%float 2%float 1%float stats0 w0).1 = OK r
    ∧ computation_time r = (-1)%float
    ∧ (computation_time r <? 0)%float = true.
Proof. eexists. split; [vm_compute; reflexivity |]. split; reflexivity. Qed.

Lemma computation_time_witness :
  computation_time results0 = (1 - 0)%float
  ∧ ∀ start_time' end_time',
      ∃ r',
        (__init__ (collaborators := collab64) sim0 [1; 2; 3]%float
           [0.25; 0.25; 0.5]%float start_time' end_time' stats0 w0).1
        = OK r'
        ∧ computation_time r' = (end_time' - start_time')%float.
Proof.
  apply (computation_time_is_difference (collaborators := collab64) sim0
           [1; 2; 3]%float [0.25; 0.25; 0.5]%float 0%float 1%float stats0
           w0 results0).
  vm_compute. reflexivity.
Defined.

(** C9, counterexample: the simulation holds an integration rule, and
    [to_problem] with every argument left unspecified hands [Problem] no
    integration rule. *)
Lemma to_problem_integration_unspecified :
  integration (simulation results0) = Some "monte_carlo"
  ∧ p_integration (to_problem results0 None None None None None) = None
  ∧ p_integration (to_problem results0 None None None None None)
    ≠ integration (simulation results0).
Proof. split; [done |]. split; [done |]. discriminate. Qed.

(** C2, counterexample: the failing call has emitted the opening progress
    message, so the world after it is not the world before it. *)
Lemma compute_micro_no_moments_effects :
  (compute_micro (collaborators := collab64) results0 [] w1).1
  = Raise (ValueError "At least one micro moment should be specified.")
  ∧ trace (compute_micro (collaborators := collab64) results0 [] w1).2
    = [Output (Text "Computing micro moment values ...")]
  ∧ (compute_micro (collaborators := collab64) results0 [] w1).2 ≠ w1.
Proof.
  split; [vm_compute; reflexivity |].
  assert (trace (compute_micro (collaborators := collab64) results0 []
                   w1).2
          = [Output (Text "Computing micro moment values ...")]) as Htrace
    by (vm_compute; reflexivity).
  split; [exact Htrace |].
  intros Heq. rewrite Heq in Htrace. discriminate.
Qed.

(** The first entry on the example is [(0 + 1 / 2) + 3 / 2]. *)
Lemma compute_micro_divides_by_row_count_witness :
  ∃ moments items,
    EconomyMoments_init (collaborators := collab64) (simulation results0)
      ["m1"; "m2"] = OK moments
    ∧ comprehension (item_of (collaborators := collab64) results0 moments
                       (heap w1))
        (unique_market_ids (simulation results0)) = OK items
    ∧ items.*1 = unique_market_ids (simulation results0)
    ∧ length [2; 0]%float = MM moments
    ∧ (∀ i, i < MM moments →
         [2; 0]%float !! i
         = Some (normalized_sum (dt := float64) moments items i))
    ∧ (∀ i item1 item2 R1 R2,
         i < MM moments →
         items = [item1; item2] →
         raw_contribution moments item1 i = Some R1 →
         raw_contribution moments item2 i = Some R2 →
         [2; 0]%float !! i
         = Some ((0 + R1 / @row_count _ _ _ float64 moments i)
                 + R2 / @row_count _ _ _ float64 moments i)%float).
Proof.
  apply (compute_micro_divides_by_row_count (collaborators := collab64)
           results0 ["m1"; "m2"] w1 [2; 0]%float).
  vm_compute. reflexivity.
Defined.

(** On the example the second moment is relevant in no market, and its
    entry is zero. *)
Lemma untouched_rows_witness :
  [2; 0]%float !! 1 = Some 0%float.
Proof.
  destruct (untouched_rows_are_zero (collaborators := collab64) results0
              ["m1"; "m2"] w1 [2; 0]%float)
    as (moments & Hinit & _ & Hrows).
  { vm_compute. reflexivity. }
  vm_compute in Hinit. injection Hinit as <-.
  apply Hrows; [simpl; lia |].
  intros t indices Ht Hindices.
  simpl in Ht. apply elem_of_cons in Ht as [-> | Ht].
  - vm_compute in Hindices. injection Hindices as <-.
    intros Hin%list_elem_of_singleton. discriminate.
  - apply elem_of_cons in Ht as [-> | Ht]; [| by apply elem_of_nil in Ht].
    vm_compute in Hindices. injection Hindices as <-.
    intros Hin%list_elem_of_singleton. discriminate.
Defined.

Lemma soft_errors_witness :
  ∃ micro w',
    compute_micro (collaborators := collab64) results0 ["m1"; "m2"] w1
    = (OK micro, w')
    ∧ length micro = MM moments0
    ∧ (∀ i, i < MM moments0 →
         micro !! i = Some (normalized_sum (dt := float64) moments0 items0 i))
    ∧ collected items0 ≠ []
    ∧ warnings (trace w') = warnings (trace w1) ++ [collected items0]
    ∧ trace w'
      = trace w1
        ++ [Output (Text "Computing micro moment values ...");
            Output (Text ""); Output (Formatted moments0 "Micro Moments")]
        ++ (Dispatch <$> unique_market_ids (simulation results0))
        ++ [Output (Text ""); Output (MultipleErrors (collected items0));
            Output (Text ""); Output (Text "");
            Output (FinishedAfter
                      (clock w1 (S (reads w1)) - clock w1 (reads w1))%float);
            Output (Text "")].
Proof.
  apply (soft_errors_one_warning (collaborators := collab64) results0
           ["m1"; "m2"] w1 moments0 items0).
  - vm_compute. reflexivity.
  - simpl. lia.
  - vm_compute. reflexivity.
  - repeat constructor; exists [0];
      (split; [vm_compute; reflexivity |]);
      (split; [repeat constructor; simpl; lia | left; reflexivity]).
  - exists ("b", ([3]%float, ["overflow"])). split; [| discriminate].
    apply elem_of_cons. right. apply elem_of_cons. by left.
Defined.

(** C7, counterexample: three markets contribute [1e16], [1] and [-1e16]
    to one moment with count 1. Consumed in the order a, b, c the binary64
    accumulator ends at 0, in the order a, c, b it ends at 1. *)
Lemma aggregate_order_float64 :
  items_abc ≡ₚ items_acb
  ∧ aggregate (dt := float64) moments3 items_abc (np_zeros 1, [])
    = OK ([0%float], [])
  ∧ aggregate (dt := float64) moments3 items_acb (np_zeros 1, [])
    = OK ([1%float], [])
  ∧ aggregate (dt := float64) moments3 items_abc (np_zeros 1, [])
    ≠ aggregate (dt := float64) moments3 items_acb (np_zeros 1, []).
Proof.
  assert (aggregate (dt := float64) moments3 items_abc (np_zeros 1, [])
          = OK ([0%float], [])) as Habc by (vm_compute; reflexivity).
  assert (aggregate (dt := float64) moments3 items_acb (np_zeros 1, [])
          = OK ([1%float], [])) as Hacb by (vm_compute; reflexivity).
  split; [constructor; apply perm_swap |].
  split; [exact Habc |]. split; [exact Hacb |].
  rewrite Habc, Hacb. intros Heq. apply float_zero_one. congruence.
Qed.

(** In exact arithmetic the two orders give the same vector. *)
Lemma aggregate_permutation_witness :
  ∃ errors',
    aggregate (dt := exact) moments3 exact_acb (np_zeros 1, [])
    = OK ([q 1], errors')
    ∧ ["e1"; "e2"] ≡ₚ errors'.
Proof.
  apply (aggregate_permutation (dt := exact) moments3 exact_abc exact_acb
           (np_zeros 1) [] [q 1] ["e1"; "e2"]).
  - apply Qcanon.Qcplus_comm.
  - apply Qcanon.Qcplus_assoc.
  - constructor. apply perm_swap.
  - vm_compute. reflexivity.
Defined.

(** C1, counterexample: two markets contribute to the one moment, and the
    markets have observation counts 3 and 5 of their own. Whatever counts
    the moments structure holds, the loop does not compute
    [R1 / 3 + R2 / 5] for all raw contributions [R1] and [R2], in exact
    arithmetic: it divides both contributions by the one count of the
    row. *)
Lemma per_market_counts_not_realized :
  ¬ ∃ counts : list Z,
      ∀ R1 R2 : Qcanon.Qc,
        ∃ micro errors,
          aggregate (dt := exact) (two_markets counts) (two_items R1 R2)
            (np_zeros 1, []) = OK (micro, errors)
          ∧ micro !! 0
            = Some (spec_markets_weighted (dt := exact) observations
                      (two_markets counts) (two_items R1 R2) 0).
Proof.
  intros (counts & Hall).
  destruct (Hall (q 15) (q 0)) as (micro1 & errors1 & Hrun1 & Hspec1).
  destruct (Hall (q 0) (q 15)) as (micro2 & errors2 & Hrun2 & Hspec2).
  apply aggregate_OK in Hrun1 as (_ & _ & Hrows1).
  apply aggregate_OK in Hrun2 as (_ & _ & Hrows2).
  specialize (Hrows1 0 (q 0) eq_refl). specialize (Hrows2 0 (q 0) eq_refl).
  rewrite Hrows1 in Hspec1. rewrite Hrows2 in Hspec2.
  assert (∀ R e, raw_contribution (dt := exact) (Error := string)
                   (two_markets counts) ("a", ([R], e)) 0 = Some R) as Ha
    by (intros; vm_compute; reflexivity).
  assert (∀ R e, raw_contribution (dt := exact) (Error := string)
                   (two_markets counts) ("b", ([R], e)) 0 = Some R) as Hb
    by (intros; vm_compute; reflexivity).
  unfold spec_markets_weighted, two_items in Hspec1, Hspec2.
  cbn [fold_left] in Hspec1, Hspec2. unfold normalized in Hspec1, Hspec2.
  rewrite !Ha, !Hb in Hspec1, Hspec2.
  revert Hspec1 Hspec2.
  generalize (row_count (dt := exact) (two_markets counts) 0).
  intros c Hspec1 Hspec2.
  assert (∀ x y : Qcanon.Qc, Some x = Some y → x = y) as Hinj
    by (intros x y Hxy; congruence).
  apply Hinj in Hspec1, Hspec2.
  assert (Qcanon.Qcplus (Qcanon.Qcplus (q 0) (Qcanon.Qcdiv (q 15) c))
            (Qcanon.Qcdiv (q 0) c)
          = Qcanon.Qcplus (Qcanon.Qcplus (q 0) (Qcanon.Qcdiv (q 0) c))
              (Qcanon.Qcdiv (q 15) c)) as Hsame.
  { rewrite <- !Qcanon.Qcplus_assoc. f_equal. apply Qcanon.Qcplus_comm. }
  pose proof (eq_trans (eq_sym Hspec1) (eq_trans Hsame Hspec2)) as Hbad.
  apply (f_equal Qcanon.this) in Hbad. vm_compute in Hbad. discriminate.
Qed.
End ExampleFacts.

(** * Further properties *)

(** ** [compute_micro], whatever its outcome *)

Section ComputeMicroOutcomes.
Context {K : Type} `{Countable K}.
Context {dt : Dtype}.
Context {Error Moment Formulation Integration Parameters : Type}.
Context {collaborators :
  Collaborators (K := K) (Error := Error) (Moment := Moment)
    (Formulation := Formulation) (Integration := Integration)
    (Parameters := Parameters)}.
Implicit Types (self : SimulationResults (K := K)
                         (Formulation := Formulation)
                         (Integration := Integration)
                         (Parameters := Parameters)).
Implicit Types (moments : EconomyMoments (K := K)).
Implicit Types (w : World (K := K) (Error := Error)).

(** [compute_micro] phase by phase. *)
Lemma compute_micro_eq self micro_moments w :
  compute_micro self micro_moments w
  = match EconomyMoments_init (simulation self) micro_moments with
    | Raise e => (Raise e, opened w)
    | OK moments =>
        if decide (MM moments = 0) then
          (Raise (ValueError "At least one micro moment should be specified."),
           opened w)
        else
          match
            for_in
              (generate_items (unique_market_ids (simulation self))
                 (market_factory self moments) safely_compute_micro)
              (accumulate moments) (np_zeros (MM moments), [])
              (announced moments w)
          with
          | (OK final, w') =>
              (OK final.1, closed final.2 (clock w (reads w)) w')
          | (Raise e, w') => (Raise e, w')
          end
    end.
Proof.
  unfold compute_micro.
  rewrite bind_run. cbn [output emit heap trace clock reads].
  rewrite bind_run. cbn [time_time heap trace clock reads].
  rewrite bind_run. unfold lift at 1. fold (opened w).
  destruct (EconomyMoments_init _ _) as [moments|e]; [| done].
  case_decide as HMM; [done |].
  rewrite bind_run. cbn [output emit heap trace clock reads opened].
  rewrite bind_run. cbn [output emit heap trace clock reads].
  rewrite <- !app_assoc. cbn [app]. fold (announced moments w).
  rewrite bind_run.
  destruct (for_in _ _ _ _) as [[final|e] w']; [| done].
  rewrite bind_run, warn_run. cbn [heap trace clock reads].
  rewrite bind_run. cbn [time_time heap trace clock reads].
  rewrite bind_run. cbn [output emit heap trace clock reads].
  rewrite bind_run. cbn [output emit heap trace clock reads].
  rewrite bind_run. cbn [output emit heap trace clock reads].
  unfold closed, mret, M_ret. do 2 f_equal. by rewrite <- !app_assoc.
Qed.

Lemma for_in_heap self moments keys state w :
  heap (for_in
          (generate_items keys (market_factory self moments)
             safely_compute_micro)
          (accumulate moments) state w).2
  = heap w.
Proof.
  revert state w. induction keys as [|k keys IH]; intros state w; [done |].
  unfold generate_items. rewrite fmap_cons, for_in_cons, step_run.
  destruct (item_of self moments (heap w) k) as [item|e]; [| done].
  destruct (accumulate moments state item) as [state1|e]; [| done].
  exact (IH state1 (dispatched [k] w)).
Qed.

(** A run that fails at market [k]: the markets before it are consumed,
    the step of [k] raises, and the generator is not advanced again. *)
Lemma for_in_fails self moments pre k post items state state' e w :
  comprehension (item_of self moments (heap w)) pre = OK items →
  aggregate moments items state = OK state' →
  item_of self moments (heap w) k ≫= accumulate moments state' = Raise e →
  for_in
    (generate_items (pre ++ k :: post) (market_factory self moments)
       safely_compute_micro)
    (accumulate moments) state w
  = (Raise e, dispatched (pre ++ [k]) w).
Proof.
  revert items state w.
  induction pre as [|k0 pre IH]; intros items state w.
  - intros [= <-] [= <-] Hfail. cbn [app].
    unfold generate_items. rewrite fmap_cons, for_in_cons, step_run.
    destruct (item_of self moments (heap w) k) as [item|e0];
      cbn [mbind Result_bind] in Hfail.
    + by rewrite Hfail.
    + by injection Hfail as ->.
  - cbn [comprehension]. intros (item & Hitem & Hrest)%bind_OK.
    apply bind_OK in Hrest as (items' & Hitems & [= <-]).
    cbn [aggregate]. intros (state1 & Hstep & Hloop)%bind_OK Hfail.
    cbn [app]. unfold generate_items.
    rewrite fmap_cons, for_in_cons, step_run, Hitem, Hstep.
    rewrite <- (dispatched_cons k0 (pre ++ [k]) w).
    by apply (IH items').
Qed.

(** X1: [compute_micro] changes no object on the heap, whether it returns
    the vector or raises. *)
Theorem compute_micro_keeps_heap self micro_moments w :
  heap (compute_micro self micro_moments w).2 = heap w.
Proof.
  rewrite compute_micro_eq.
  destruct (EconomyMoments_init _ _) as [moments|e]; [| done].
  case_decide; [done |].
  pose proof (for_in_heap self moments
                (unique_market_ids (simulation self))
                (np_zeros (MM moments), []) (announced moments w)) as Hheap.
  destruct (for_in _ _ _ _) as [[final|e] w']; exact Hheap.
Qed.

(** X3: when no market reports a soft error, [compute_micro] returns the
    vector and emits no aggregate warning: its output is the opening
    message, the moments, and the closing messages with the elapsed time,
    around the dispatch of all markets. *)
Theorem no_soft_errors_no_warning self micro_moments w moments items :
  EconomyMoments_init (simulation self) micro_moments = OK moments →
  MM moments ≠ 0 →
  comprehension (item_of self moments (heap w))
    (unique_market_ids (simulation self)) = OK items →
  Forall (item_fits moments (MM moments)) items →
  Forall (λ item, item.2.2 = []) items →
  ∃ micro w',
    compute_micro self micro_moments w = (OK micro, w')
    ∧ (∀ i, i < MM moments →
         micro !! i = Some (normalized_sum moments items i))
    ∧ warnings (trace w') = warnings (trace w)
    ∧ trace w'
      = trace w
        ++ [Output (Text "Computing micro moment values ...");
            Output (Text ""); Output (Formatted moments "Micro Moments")]
        ++ (Dispatch <$> unique_market_ids (simulation self))
        ++ [Output (Text "");
            Output (FinishedAfter
                      (clock w (S (reads w)) - clock w (reads w))%float);
            Output (Text "")].
Proof.
  intros Hinit HMM Hitems Hfits Hquiet.
  destruct (aggregate_fits moments items (np_zeros (MM moments)) [])
    as [micro Hloop].
  { unfold np_zeros. by rewrite length_replicate. }
  cbn [app] in Hloop.
  assert (collected items = []) as Hnone.
  { unfold collected. clear Hitems Hfits Hloop.
    induction Hquiet as [|item items Hitem _ IH]; [done |].
    cbn. by rewrite Hitem, IH. }
  rewrite Hnone in Hloop.
  exists micro, (reported moments (unique_market_ids (simulation self)) [] w).
  split; [by apply compute_micro_run with items |].
  apply aggregate_OK in Hloop as (_ & Hlen & Hrows).
  split.
  { intros i Hi. by apply Hrows, np_zeros_lookup. }
  unfold reported. cbn [trace]. split; [| done].
  rewrite !warnings_app, warnings_dispatch. cbn. by rewrite app_nil_r.
Qed.

(** X4: when the step of a market raises, be it the factory, the market
    computation or the loop body, and the markets before it went through,
    [compute_micro] raises that exception: the markets after it are never
    dispatched, and neither the aggregate warning nor the closing messages
    are emitted. *)
Theorem market_failure_aborts self micro_moments w moments pre k post items
    state e :
  EconomyMoments_init (simulation self) micro_moments = OK moments →
  MM moments ≠ 0 →
  unique_market_ids (simulation self) = pre ++ k :: post →
  comprehension (item_of self moments (heap w)) pre = OK items →
  aggregate moments items (np_zeros (MM moments), []) = OK state →
  item_of self moments (heap w) k ≫= accumulate moments state = Raise e →
  compute_micro self micro_moments w
  = (Raise e,
     {| heap := heap w;
        trace :=
          trace w
          ++ [Output (Text "Computing micro moment values ...");
              Output (Text ""); Output (Formatted moments "Micro Moments")]
          ++ (Dispatch <$> pre ++ [k]);
        clock := clock w;
        reads := S (reads w) |}).
Proof.
  intros Hinit HMM Hids Hitems Hloop Hfail.
  rewrite compute_micro_eq, Hinit, decide_False by done. rewrite Hids.
  rewrite (for_in_fails self moments pre k post items _ state e
             (announced moments w)); [| done..].
  unfold dispatched, announced. cbn [heap trace clock reads].
  by rewrite <- app_assoc.
Qed.
End ComputeMicroOutcomes.

(** ** The loop body: when it succeeds and what it raises *)

Section LoopOutcomes.
Context {K : Type} `{Countable K}.
Context {dt : Dtype}.
Context {Error : Type}.
Implicit Types (moments : EconomyMoments (K := K)).
Implicit Types (micro : Array) (errors : list Error).
Implicit Types (item : K * (Array * list Error)).

Lemma take_Raise {A} (a : list A) indices i :
  i ∈ indices → length a ≤ i → take (K := K) a indices = Raise IndexError.
Proof.
  intros Hin Hi. unfold take.
  destruct (comprehension_Raise
              (λ i, match a !! i with
                    | Some x => OK x
                    | None => Raise (K := K) IndexError
                    end) indices i IndexError Hin)
    as (i0 & e0 & _ & Hi0 & ->).
  { by rewrite (proj2 (lookup_ge_None a i) Hi). }
  destruct (a !! i0); [done | by injection Hi0 as <-].
Qed.

Lemma take_Raise_index {A} (a : list A) indices e :
  take (K := K) a indices = Raise e → e = IndexError.
Proof.
  unfold take. induction indices as [|i indices IH]; [done |].
  cbn [comprehension]. destruct (a !! i); cbn [mbind Result_bind].
  - destruct (comprehension _ indices); cbn [mbind Result_bind]; [done |].
    intros [= <-]. by apply IH.
  - by intros [= <-].
Qed.

(** X5: the loop over the items succeeds exactly when every item fits the
    vector it starts from: each market has an index set whose rows lie
    within the vector and within [market_counts], and each partial result
    has one entry per row or a single entry. Whether the loop succeeds
    depends neither on the values nor on the order of the items. *)
Theorem aggregate_succeeds_iff moments items micro errors :
  is_OK (aggregate moments items (micro, errors))
  ↔ Forall (item_fits moments (length micro)) items.
Proof.
  split.
  - destruct (aggregate _ _ _) as [state'|e] eqn:Hloop; [| done].
    intros _. by eapply aggregate_OK_fits.
  - intros Hfits.
    destruct (aggregate_fits moments items micro errors Hfits)
      as [micro' ->].
    done.
Qed.

(** X6: what the loop body raises. A market without an entry in
    [market_indices] raises [KeyError] with the market; a row of the
    market's index set beyond the vector, or beyond [market_counts], raises
    [IndexError]; a partial result that has neither one entry per row nor a
    single entry raises [ValueError]. *)
Theorem accumulate_raises moments micro errors t micro_t errors_t :
  (market_indices moments !! t = None →
   accumulate moments (micro, errors) (t, (micro_t, errors_t))
   = Raise (KeyError t))
  ∧ (∀ indices i,
       market_indices moments !! t = Some indices →
       i ∈ indices →
       length micro ≤ i ∨ length (market_counts moments) ≤ i →
       accumulate moments (micro, errors) (t, (micro_t, errors_t))
       = Raise IndexError)
  ∧ (∀ indices,
       market_indices moments !! t = Some indices →
       Forall (λ i, i < length micro ∧ i < length (market_counts moments))
         indices →
       length micro_t ≠ length indices →
       length micro_t ≠ 1 →
       ∃ msg,
         accumulate moments (micro, errors) (t, (micro_t, errors_t))
         = Raise (ValueError msg)).
Proof.
  unfold accumulate, getitem. split_and!.
  - by intros ->.
  - intros indices i -> Hin Hrange. cbn [mbind Result_bind].
    destruct (take micro indices) as [target|e] eqn:Htarget.
    + destruct Hrange as [Hi | Hi].
      * by rewrite (take_Raise micro indices i Hin Hi) in Htarget.
      * cbn [mbind Result_bind]. by rewrite (take_Raise _ indices i Hin Hi).
    + destruct Hrange as [Hi | Hi].
      * rewrite (take_Raise micro indices i Hin Hi) in Htarget.
        by injection Htarget as <-.
      * apply take_Raise_index in Htarget. by subst.
  - intros indices -> Hrows Hshape Hone. cbn [mbind Result_bind].
    destruct (take_total (K := K) micro indices) as (target & -> & Hlen1).
    { eapply Forall_impl; [exact Hrows |]. by intros i [? ?]. }
    destruct (take_total (K := K) (market_counts moments) indices)
      as (counts & -> & Hlen2).
    { eapply Forall_impl; [exact Hrows |]. by intros i [? ?]. }
    cbn [mbind Result_bind]. unfold broadcast.
    rewrite decide_False by lia.
    destruct micro_t as [|x [|x' micro_t]]; [| done |];
      (destruct counts as [|y [|y' counts]]; cbn [mbind Result_bind];
       [by eexists | | by eexists]);
      unfold broadcast_to; rewrite decide_False by (cbn in *; lia);
      cbn; by eexists.
Qed.
End LoopOutcomes.

(** ** One contributing market, and failed validation *)

Section ComputeMicroMore.
Context {K : Type} `{Countable K}.
Context {dt : Dtype}.
Context {Error Moment Formulation Integration Parameters : Type}.
Context {collaborators :
  Collaborators (K := K) (Error := Error) (Moment := Moment)
    (Formulation := Formulation) (Integration := Integration)
    (Parameters := Parameters)}.
Implicit Types (self : SimulationResults (K := K)
                         (Formulation := Formulation)
                         (Integration := Integration)
                         (Parameters := Parameters)).
Implicit Types (moments : EconomyMoments (K := K)).
Implicit Types (w : World (K := K) (Error := Error)).

Lemma fold_left_normalized_none moments i
    (items : list (K * (Array * list Error))) x :
  Forall (λ item, raw_contribution moments item i = None) items →
  fold_left (normalized moments i) items x = x.
Proof.
  intros Hnone. revert x.
  induction Hnone as [|item items Hitem _ IH]; intros x; [done |].
  cbn [fold_left]. unfold normalized at 2. by rewrite Hitem.
Qed.

(** X7: a moment to which exactly one market contributes, with raw
    contribution [R], has the entry [0 + R / C] for the count [C] of its
    row, wherever that market stands among the others. *)
Theorem single_market_entry self micro_moments w micro :
  (compute_micro self micro_moments w).1 = OK micro →
  ∃ moments items,
    EconomyMoments_init (simulation self) micro_moments = OK moments
    ∧ comprehension (item_of self moments (heap w))
        (unique_market_ids (simulation self)) = OK items
    ∧ ∀ i pre item post R,
        i < MM moments →
        items = pre ++ item :: post →
        raw_contribution moments item i = Some R →
        Forall (λ other, raw_contribution moments other i = None)
          (pre ++ post) →
        micro !! i = Some (num_zero ⊕ R ⊘ row_count moments i).
Proof.
  intros (moments & items & errors & Hinit & HMM & Hitems & Hloop)
    %compute_micro_inv.
  apply aggregate_OK in Hloop as (_ & _ & Hrows).
  exists moments, items. split_and!; try done.
  intros i pre item post R Hi -> HR [Hpre Hpost]%Forall_app.
  rewrite (Hrows i num_zero) by by apply np_zeros_lookup.
  rewrite fold_left_app. cbn [fold_left].
  rewrite (fold_left_normalized_none _ _ pre) by done.
  rewrite (fold_left_normalized_none _ _ post) by done.
  unfold normalized. by rewrite HR.
Qed.

(** X8: when the validation of the micro moments raises, [compute_micro]
    raises the same exception; it has then emitted only its opening message
    and read the clock once, and no market has been dispatched. *)
Theorem invalid_moments_raise self micro_moments w e :
  EconomyMoments_init (simulation self) micro_moments = Raise e →
  compute_micro self micro_moments w = (Raise e, opened w).
Proof. intros Hinit. by rewrite compute_micro_eq, Hinit. Qed.
End ComputeMicroMore.

(** ** The market factory *)

Section MarketFactoryAlone.
Context {K : Type} `{Countable K}.
Context {dt : Dtype}.
Context {Error Formulation Integration Parameters : Type}.
Implicit Types (self : SimulationResults (K := K)
                         (Formulation := Formulation)
                         (Integration := Integration)
                         (Parameters := Parameters)).
Implicit Types (moments : EconomyMoments (K := K)).
Implicit Types (w : World (K := K) (Error := Error)).

Lemma setfield_same_length (column val : Array) :
  length val = length column → setfield (K := K) column val = OK val.
Proof.
  intros Hlen. unfold setfield, broadcast_to. rewrite decide_True by done.
  f_equal. revert val Hlen.
  induction column as [|c column IH]; intros [|v val] Hlen; try done.
  cbn. f_equal. apply IH. by injection Hlen.
Qed.

Lemma market_factory_eq self moments s w :
  market_factory self moments s w
  = (panel ← match heap w !! r_product_data self with
             | Some panel => OK panel
             | None => Raise (OtherError "dangling reference")
             end;
     rows ← getitem (_product_market_indices (simulation self)) s;
     prices_s ← take (prices panel) rows;
     shares_s ← take (shares panel) rows;
     OK {| m_simulation := simulation self; m_t := s;
           m_parameters := _parameters (simulation self);
           m_sigma := sigma (simulation self);
           m_pi := pi (simulation self);
           m_rho := rho (simulation self);
           m_beta := beta (simulation self);
           m_delta := delta self;
           m_moments := moments;
           m_prices := prices_s; m_shares := shares_s |},
     w).
Proof.
  unfold market_factory, deref, lift.
  change (@mbind M _) with (@M_bind K _ _ dt Error). unfold M_bind.
  destruct (heap w !! r_product_data self) as [panel|]; [| done].
  cbn [mbind Result_bind].
  destruct (getitem _ s) as [rows|]; [| done].
  cbn [mbind Result_bind].
  destruct (take (prices panel) rows) as [prices_s|]; [| done].
  cbn [mbind Result_bind].
  by destruct (take (shares panel) rows) as [shares_s|].
Qed.

(** X9: what [market_factory] raises on the results' panel: [KeyError]
    with the market when the simulation has no rows for the market, and
    [IndexError] when one of the market's rows lies beyond the price or the
    share column. In both cases nothing has changed. *)
Theorem market_factory_raises self moments s w panel :
  heap w !! r_product_data self = Some panel →
  (_product_market_indices (simulation self) !! s = None →
   market_factory self moments s w = (Raise (KeyError s), w))
  ∧ (∀ rows i,
       _product_market_indices (simulation self) !! s = Some rows →
       i ∈ rows →
       length (prices panel) ≤ i ∨ length (shares panel) ≤ i →
       market_factory self moments s w = (Raise IndexError, w)).
Proof.
  intros Hpanel. split.
  - intros Hnone. rewrite market_factory_eq, Hpanel. unfold getitem.
    by rewrite Hnone.
  - intros rows i Hrows Hin Hrange.
    rewrite market_factory_eq, Hpanel. unfold getitem. rewrite Hrows.
    cbn [mbind Result_bind].
    destruct (take (prices panel) rows) as [prices_s|e] eqn:Hps.
    + destruct Hrange as [Hi | Hi].
      * by rewrite (take_Raise (prices panel) rows i Hin Hi) in Hps.
      * cbn [mbind Result_bind].
        by rewrite (take_Raise (shares panel) rows i Hin Hi).
    + apply take_Raise_index in Hps. by subst.
Qed.
End MarketFactoryAlone.

Section MarketFactory.
Context {K : Type} `{Countable K}.
Context {dt : Dtype}.
Context {Error Moment Formulation Integration Parameters : Type}.
Context {collaborators :
  Collaborators (K := K) (Error := Error) (Moment := Moment)
    (Formulation := Formulation) (Integration := Integration)
    (Parameters := Parameters)}.
Implicit Types (sim : Simulation (K := K) (Formulation := Formulation)
                        (Integration := Integration)
                        (Parameters := Parameters)).
Implicit Types (moments : EconomyMoments (K := K)).
Implicit Types (w : World (K := K) (Error := Error)).

(** X10: after a construction with full-length prices and shares, the
    market that [market_factory] builds for [s] holds exactly the simulated
    prices and shares of the rows of [s], read from the results' panel and
    not from the simulation's, together with the results' mean utility; the
    factory changes nothing. *)
Theorem market_sees_overlaid_data sim prices' shares' start_time end_time
    iteration_stats w r panel moments s rows :
  (__init__ sim prices' shares' start_time end_time iteration_stats w).1
  = OK r →
  heap w !! product_data sim = Some panel →
  length prices' = length (prices panel) →
  length shares' = length (shares panel) →
  _product_market_indices sim !! s = Some rows →
  Forall (λ i, i < length (prices panel) ∧ i < length (shares panel)) rows →
  let w' :=
    (__init__ sim prices' shares' start_time end_time iteration_stats w).2 in
  ∃ market,
    market_factory r moments s w' = (OK market, w')
    ∧ Forall2 (λ i x, prices' !! i = Some x) rows (m_prices market)
    ∧ Forall2 (λ i x, shares' !! i = Some x) rows (m_shares market)
    ∧ m_t market = s
    ∧ m_delta market = delta r
    ∧ m_moments market = moments.
Proof.
  intros (panel0 & p & s0 & Hpanel0 & Hp & Hs & Hout & Hsim & Hdata & _)
    %init_inv Hpanel Hlenp Hlens Hrows Hin.
  assert (panel0 = panel) as -> by congruence.
  rewrite setfield_same_length in Hp by done. injection Hp as <-.
  rewrite setfield_same_length in Hs by done. injection Hs as <-.
  cbn zeta. rewrite Hout, market_factory_eq.
  unfold with_heap at 1. cbn [heap]. rewrite Hdata, lookup_insert_eq, Hsim.
  cbn [mbind Result_bind]. unfold getitem. rewrite Hrows.
  cbn [mbind Result_bind prices shares].
  destruct (take_total (K := K) prices' rows) as (prices_s & Hps & _).
  { eapply Forall_impl; [exact Hin |]. intros i [? ?]. lia. }
  destruct (take_total (K := K) shares' rows) as (shares_s & Hss & _).
  { eapply Forall_impl; [exact Hin |]. intros i [? ?]. lia. }
  rewrite Hps. cbn [mbind Result_bind]. rewrite Hss.
  cbn [mbind Result_bind].
  eexists. split; [done |]. cbn.
  apply take_OK in Hps, Hss. done.
Qed.

End MarketFactory.

(** ** The constructor under its input contract *)

Section ConstructorMore.
Context {K : Type} `{Countable K}.
Context {dt : Dtype}.
Context {Error Moment Formulation Integration Parameters : Type}.
Context {collaborators :
  Collaborators (K := K) (Error := Error) (Moment := Moment)
    (Formulation := Formulation) (Integration := Integration)
    (Parameters := Parameters)}.
Implicit Types (w : World (K := K) (Error := Error)).
Implicit Types (sim : Simulation (K := K) (Formulation := Formulation)
                        (Integration := Integration)
                        (Parameters := Parameters)).
Implicit Types (iteration_stats : gmap K SolverStats).

Lemma matmul_total (X : Matrix) (b : Array) :
  Forall (λ row, length row = length b) X →
  matmul (K := K) X b = OK ((λ row, num_dot row b) <$> X).
Proof.
  unfold matmul. induction 1 as [|row X Hrow _ IH]; [done |].
  cbn [comprehension]. rewrite decide_True by done.
  cbn [mbind Result_bind]. by rewrite IH.
Qed.

Lemma diagnostics_total {A} (field : SolverStats → A) (P : A → Prop)
    iteration_stats ids :
  (∀ t, t ∈ ids →
     ∃ st, iteration_stats !! t = Some st ∧ P (field st)) →
  ∃ l, diagnostics field iteration_stats ids = OK l ∧ Forall P l.
Proof.
  induction ids as [|t ids IH]; intros Hall.
  - by exists [].
  - destruct (Hall t) as (st & Hst & HP); [apply elem_of_cons; by left |].
    destruct IH as (l & Hl & HPl).
    { intros t' Ht'. apply Hall, elem_of_cons. by right. }
    exists (field st :: l). split; [| by constructor].
    apply diagnostics_OK. constructor; [by exists st |].
    by apply diagnostics_OK.
Qed.

Lemma np_array_int_total (values : list Z) :
  Forall (λ z, - 2 ^ 63 ≤ z < 2 ^ 63)%Z values →
  np_array_int (K := K) values = OK values.
Proof.
  unfold np_array_int. induction 1 as [|z values Hz _ IH]; [done |].
  cbn [comprehension]. rewrite decide_True by done.
  cbn [mbind Result_bind]. by rewrite IH.
Qed.

(** X11: under its input contract the constructor returns results. When
    the simulation's panel exists, prices and shares have one entry per
    row, the design matrix has rows as long as [beta] and as many rows as
    [xi], and [iteration_stats] has an entry with 64-bit counts for every
    market, the construction succeeds; the mean utility is the inner
    product of each row with [beta] plus the entry of [xi]; the only change
    of the world is the new panel, and nothing is printed. *)
Theorem init_succeeds sim prices' shares' start_time end_time
    iteration_stats w panel X1 :
  heap w !! product_data sim = Some panel →
  length prices' = length (prices panel) →
  length shares' = length (shares panel) →
  _compute_true_X1 sim panel prices' = OK X1 →
  Forall (λ row, length row = length (beta sim)) X1 →
  length (xi sim) = length X1 →
  (∀ t, t ∈ unique_market_ids sim →
     ∃ st, iteration_stats !! t = Some st
           ∧ ((- 2 ^ 63 ≤ iterations st < 2 ^ 63)
              ∧ (- 2 ^ 63 ≤ evaluations st < 2 ^ 63))%Z) →
  ∃ r,
    __init__ sim prices' shares' start_time end_time iteration_stats w
    = (OK r,
       with_heap w
         (<[fresh (dom (heap w)) :=
              {| prices := prices'; shares := shares';
                 columns := columns panel |}]> (heap w)))
    ∧ simulation r = sim
    ∧ r_product_data r = fresh (dom (heap w))
    ∧ computation_time r = (end_time - start_time)%float
    ∧ delta r
      = zip_with num_add ((λ row, num_dot row (beta sim)) <$> X1) (xi sim).
Proof.
  intros Hpanel Hlenp Hlens HX1 Hrows Hxi Hstats.
  rewrite init_eq, Hpanel. cbn zeta.
  rewrite !setfield_same_length by done. rewrite HX1.
  cbn [mbind Result_bind]. rewrite matmul_total by done.
  cbn [mbind Result_bind]. unfold broadcast at 1.
  rewrite decide_True by by rewrite length_fmap.
  cbn [mbind Result_bind].
  destruct (diagnostics_total converged (λ _, True) iteration_stats
              (unique_market_ids sim)) as (conv & -> & _).
  { intros t Ht. destruct (Hstats t Ht) as (st & Hst & _). by exists st. }
  destruct (diagnostics_total iterations (λ z, - 2 ^ 63 ≤ z < 2 ^ 63)%Z
              iteration_stats (unique_market_ids sim)) as (its & -> & Hits).
  { intros t Ht. destruct (Hstats t Ht) as (st & Hst & Hi & _).
    by exists st. }
  destruct (diagnostics_total evaluations (λ z, - 2 ^ 63 ≤ z < 2 ^ 63)%Z
              iteration_stats (unique_market_ids sim)) as (evs & -> & Hevs).
  { intros t Ht. destruct (Hstats t Ht) as (st & Hst & _ & He).
    by exists st. }
  cbn [mbind Result_bind]. rewrite !np_array_int_total by done.
  cbn [mbind Result_bind]. by eexists.
Qed.

(** X12: the problem that [to_problem] builds by default from constructed
    results is given the results' panel, which holds the simulated prices
    and shares, and not the panel of the simulation. *)
Theorem default_problem_uses_overlaid_panel sim prices' shares' start_time
    end_time iteration_stats w r panel integration' :
  (__init__ sim prices' shares' start_time end_time iteration_stats w).1
  = OK r →
  heap w !! product_data sim = Some panel →
  length prices' = length (prices panel) →
  length shares' = length (shares panel) →
  let w' :=
    (__init__ sim prices' shares' start_time end_time iteration_stats w).2 in
  let problem := to_problem r None None None None integration' in
  p_product_data problem ≠ product_data sim
  ∧ heap w' !! p_product_data problem
    = Some {| prices := prices'; shares := shares';
              columns := columns panel |}
  ∧ heap w' !! product_data sim = Some panel
  ∧ p_product_formulations problem = product_formulations sim.
Proof.
  intros (panel0 & p & s0 & Hpanel0 & Hp & Hs & Hout & Hsim & Hdata & _)
    %init_inv Hpanel Hlenp Hlens.
  assert (panel0 = panel) as -> by congruence.
  rewrite setfield_same_length in Hp by done. injection Hp as <-.
  rewrite setfield_same_length in Hs by done. injection Hs as <-.
  cbn zeta. rewrite Hout. unfold with_heap, to_problem.
  cbn [heap p_product_data p_product_formulations]. rewrite Hdata, Hsim.
  pose proof (fresh_loc_ne w _ _ Hpanel) as Hne.
  split; [done |]. split; [by rewrite lookup_insert_eq |].
  split; [by rewrite lookup_insert_ne | done].
Qed.
End ConstructorMore.

(** ** The summary *)

Section SummaryOrder.
Context {K : Type} `{Countable K}.
Context {dt : Dtype}.
Context {Formulation Integration Parameters : Type}.
Context {formatting : Formatting}.

Lemma wrap64_add_l (u v : Z) : wrap64 (wrap64 u + v) = wrap64 (u + v).
Proof.
  unfold wrap64. f_equal.
  replace ((u + 2 ^ 63) mod 2 ^ 64 - 2 ^ 63 + v + 2 ^ 63)%Z
    with ((u + 2 ^ 63) mod 2 ^ 64 + v)%Z by lia.
  rewrite Zplus_mod_idemp_l. f_equal. lia.
Qed.

Lemma wrap64_small (z : Z) : (- 2 ^ 63 ≤ z < 2 ^ 63)%Z → wrap64 z = z.
Proof. intros Hz. unfold wrap64. rewrite Z.mod_small; lia. Qed.

Lemma np_sum_from (a : list Z) (acc : Z) :
  fold_left (λ acc z, wrap64 (acc + z)) a (wrap64 acc)
  = wrap64 (acc + total a).
Proof.
  revert acc. induction a as [|z a IH]; intros acc; cbn [fold_left total foldr].
  - by rewrite Z.add_0_r.
  - rewrite wrap64_add_l, IH. fold (total a). f_equal. lia.
Qed.

Lemma np_sum_total (a : list Z) : np_sum a = wrap64 (total a).
Proof.
  unfold np_sum. change 0%Z with (wrap64 0) at 1. by rewrite np_sum_from.
Qed.

Lemma total_permutation (a b : list Z) : a ≡ₚ b → total a = total b.
Proof.
  unfold total. induction 1; cbn [foldr]; lia.
Qed.

(** X13: the summary depends on the results only through the elapsed time
    and the two totals: results with the same elapsed time whose iteration
    and evaluation counts are permutations of each other, as when the
    markets are listed in another order, print the same summary. *)
Theorem summary_permutation
    (r1 r2 : SimulationResults (K := K) (Formulation := Formulation)
               (Integration := Integration) (Parameters := Parameters)) :
  computation_time r1 = computation_time r2 →
  fp_iterations r1 ≡ₚ fp_iterations r2 →
  contraction_evaluations r1 ≡ₚ contraction_evaluations r2 →
  __str__ r1 = __str__ r2.
Proof.
  intros Htime Hits Hevs. unfold __str__.
  by rewrite Htime, !np_sum_total, (total_permutation _ _ Hits),
    (total_permutation _ _ Hevs).
Qed.

End SummaryOrder.

Section SummaryFacts.
Context {K : Type} `{Countable K}.
Context {dt : Dtype}.
Context {Error Moment Formulation Integration Parameters : Type}.
Context {collaborators :
  Collaborators (K := K) (Error := Error) (Moment := Moment)
    (Formulation := Formulation) (Integration := Integration)
    (Parameters := Parameters)}.
Context {formatting : Formatting}.
Implicit Types (w : World (K := K) (Error := Error)).
Implicit Types (sim : Simulation (K := K) (Formulation := Formulation)
                        (Integration := Integration)
                        (Parameters := Parameters)).
Implicit Types (iteration_stats : gmap K SolverStats).

Lemma diagnostics_values {A} (field : SolverStats → A) (d : A)
    iteration_stats ids l :
  diagnostics field iteration_stats ids = OK l →
  l = (λ t, from_option field d (iteration_stats !! t)) <$> ids.
Proof.
  rewrite diagnostics_OK.
  induction 1 as [|t x ids l (st & Hst & ->) _ IH]; [done |].
  cbn [fmap list_fmap]. by rewrite Hst, IH.
Qed.

(** X14: the summary of constructed results has six lines: the title, a
    rule, the two header rows, the row of values and a rule, for three
    columns of width 11. The row of values shows the formatted difference
    of the timestamps and, as 64-bit integers, the total of the solver's
    iteration counts over the markets of the simulation and the total of
    its evaluation counts; a total that fits 64 bits is shown as it is. *)
Theorem summary_of_constructed sim prices' shares' start_time end_time
    iteration_stats w r :
  (__init__ sim prices' shares' start_time end_time iteration_stats w).1
  = OK r →
  let ids := unique_market_ids sim in
  let its := (λ t, from_option iterations 0%Z (iteration_stats !! t)) <$> ids in
  let evs := (λ t, from_option evaluations 0%Z (iteration_stats !! t)) <$> ids in
  __str__ r
  = String.concat newline
      [ "Simulation Results Summary:";
        formatter_line [11; 11; 11];
        formatter_row [11; 11; 11]
          [CellStr "Computation"; CellStr "Fixed Point";
           CellStr "Contraction"] false;
        formatter_row [11; 11; 11]
          [CellStr "Time"; CellStr "Iterations"; CellStr "Evaluations"] true;
        formatter_row [11; 11; 11]
          [CellStr (format_seconds (end_time - start_time)%float);
           CellInt (wrap64 (total its)); CellInt (wrap64 (total evs))] false;
        formatter_line [11; 11; 11] ]
  ∧ ((- 2 ^ 63 ≤ total its < 2 ^ 63)%Z → wrap64 (total its) = total its)
  ∧ ((- 2 ^ 63 ≤ total evs < 2 ^ 63)%Z → wrap64 (total evs) = total evs).
Proof.
  intros (panel & p & s & _ & _ & _ & _ & _ & _ & Htime
          & _ & Hits & Hevs)%init_inv.
  cbn zeta. split; [| split; apply wrap64_small].
  apply (diagnostics_values _ 0%Z) in Hits, Hevs.
  unfold __str__. by rewrite Hits, Hevs, Htime, !np_sum_total.
Qed.
End SummaryFacts.

(** ** The further properties on the small economy *)

Module MoreFacts.
Import Example Example2.

Lemma float_two_half : 2%float ≠ 0.5%float.
Proof.
  intros Heq. apply (f_equal Prim2SF) in Heq. vm_compute in Heq.
  discriminate.
Qed.

(** C6, counterexample: market ["a"] succeeds with the partial result 1
    and market ["b"] reports a soft error together with the partial result
    3. The first entry of the returned vector is [(0 + 1 / 2) + 3 / 2 = 2],
    not the [0 + 1 / 2 = 0.5] of the successful market alone. *)
Lemma soft_error_market_is_added :
  (compute_micro (collaborators := collab64) results0 ["m1"; "m2"] w1).1
  = OK [2; 0]%float
  ∧ comprehension (item_of (collaborators := collab64) results0 moments0
                     (heap w1))
      (unique_market_ids (simulation results0)) = OK items0
  ∧ successful items0 = [("a", ([1]%float, []))]
  ∧ normalized_sum (dt := float64) moments0 (successful items0) 0
    = 0.5%float
  ∧ [2; 0]%float !! 0
    ≠ Some (normalized_sum (dt := float64) moments0 (successful items0) 0).
Proof.
  assert (normalized_sum (dt := float64) moments0 (successful items0) 0
          = 0.5%float) as Hhalf by (vm_compute; reflexivity).
  split_and!; try (vm_compute; reflexivity).
  rewrite Hhalf. intros Heq. apply float_two_half. simpl in Heq. congruence.
Qed.

(** A run without soft errors. *)
Lemma no_soft_errors_witness :
  ∃ micro w',
    compute_micro (collaborators := collab_quiet) results0 ["m1"; "m2"] w1
    = (OK micro, w')
    ∧ (∀ i, i < MM moments0 →
         micro !! i
         = Some (normalized_sum (dt := float64) moments0 items_quiet i))
    ∧ warnings (trace w') = warnings (trace w1)
    ∧ trace w'
      = trace w1
        ++ [Output (Text "Computing micro moment values ...");
            Output (Text ""); Output (Formatted moments0 "Micro Moments")]
        ++ (Dispatch <$> unique_market_ids (simulation results0))
        ++ [Output (Text "");
            Output (FinishedAfter
                      (clock w1 (S (reads w1)) - clock w1 (reads w1))%float);
            Output (Text "")].
Proof.
  apply (no_soft_errors_no_warning (collaborators := collab_quiet) results0
           ["m1"; "m2"] w1 moments0 items_quiet).
  - vm_compute. reflexivity.
  - simpl. lia.
  - vm_compute. reflexivity.
  - repeat constructor; exists [0];
      (split; [vm_compute; reflexivity |]);
      (split; [repeat constructor; simpl; lia | left; reflexivity]).
  - repeat constructor.
Defined.

(** The computation of market ["b"] fails: market ["c"] is not dispatched
    and nothing is printed after the dispatch of ["b"]. *)
Lemma market_failure_witness :
  compute_micro (collaborators := collab_fatal) results3 ["m1"; "m2"] w1
  = (Raise (OtherError "singular matrix"),
     {| heap := heap w1;
        trace :=
          trace w1
          ++ [Output (Text "Computing micro moment values ...");
              Output (Text ""); Output (Formatted moments3m "Micro Moments")]
          ++ (Dispatch <$> ["a"] ++ ["b"]);
        clock := clock w1;
        reads := S (reads w1) |}).
Proof.
  eapply (market_failure_aborts (collaborators := collab_fatal) results3
            ["m1"; "m2"] w1 moments3m ["a"] "b" ["c"]).
  - vm_compute. reflexivity.
  - simpl. lia.
  - reflexivity.
  - vm_compute. reflexivity.
  - vm_compute. reflexivity.
  - vm_compute. reflexivity.
Defined.

(** The three ways in which the loop body fails, on the moments of the
    small economy. *)
Lemma accumulate_raises_witness :
  accumulate (dt := float64) (Error := string) moments0 ([0; 0]%float, [])
    ("z", ([1]%float, [])) = Raise (KeyError "z")
  ∧ accumulate (dt := float64) (Error := string) moments0 ([]%float, [])
      ("a", ([1]%float, [])) = Raise IndexError
  ∧ ∃ msg,
      accumulate (dt := float64) (Error := string) moments0
        ([0; 0]%float, []) ("a", ([1; 2; 3]%float, []))
      = Raise (ValueError msg).
Proof.
  split; [| split].
  - apply (accumulate_raises (dt := float64) moments0 [0; 0]%float []
             "z" [1]%float []).
    vm_compute. reflexivity.
  - apply (proj1 (proj2 (accumulate_raises (dt := float64) moments0 []%float
                           [] "a" [1]%float [])) [0] 0).
    + vm_compute. reflexivity.
    + apply elem_of_cons. by left.
    + left. simpl. lia.
  - apply (proj2 (proj2 (accumulate_raises (dt := float64) moments0
                           [0; 0]%float [] "a" [1; 2; 3]%float [])) [0]).
    + vm_compute. reflexivity.
    + repeat constructor; simpl; lia.
    + simpl. lia.
    + simpl. lia.
Defined.

(** Only market ["a"] contributes to the first moment. *)
Lemma single_market_witness :
  ∃ moments items,
    EconomyMoments_init (collaborators := collab_single)
      (simulation results0) ["m1"; "m2"] = OK moments
    ∧ comprehension (item_of (collaborators := collab_single) results0
                       moments (heap w1))
        (unique_market_ids (simulation results0)) = OK items
    ∧ ∀ i pre item post R,
        i < MM moments →
        items = pre ++ item :: post →
        raw_contribution moments item i = Some R →
        Forall (λ other, raw_contribution moments other i = None)
          (pre ++ post) →
        [0.5; 0]%float !! i
        = Some (0 + R / @row_count _ _ _ float64 moments i)%float.
Proof.
  apply (single_market_entry (collaborators := collab_single) results0
           ["m1"; "m2"] w1 [0.5; 0]%float).
  vm_compute. reflexivity.
Defined.

(** The moment ["bad"] is refused. *)
Lemma invalid_moments_witness :
  compute_micro (collaborators := collab_invalid) results0 ["m1"; "bad"] w1
  = (Raise (ValueError "invalid moment"), opened w1).
Proof.
  apply (invalid_moments_raise (collaborators := collab_invalid) results0
           ["m1"; "bad"] w1).
  vm_compute. reflexivity.
Defined.

(** The market of ["a"] holds the first two simulated prices and
    shares. *)
Lemma market_sees_overlaid_data_witness :
  let w' :=
    (__init__ (collaborators := collab64) sim0 prices1 shares1 0%float
       1%float stats0 w0).2 in
  ∃ market,
    market_factory results0 moments0 "a" w' = (OK market, w')
    ∧ Forall2 (λ i x, prices1 !! i = Some x) [0; 1] (m_prices market)
    ∧ Forall2 (λ i x, shares1 !! i = Some x) [0; 1] (m_shares market)
    ∧ m_t market = "a"
    ∧ m_delta market = delta results0
    ∧ m_moments market = moments0.
Proof.
  apply (market_sees_overlaid_data (collaborators := collab64) sim0 prices1
           shares1 0%float 1%float stats0 w0 results0 panel0 moments0 "a"
           [0; 1]).
  - vm_compute. reflexivity.
  - vm_compute. reflexivity.
  - reflexivity.
  - reflexivity.
  - vm_compute. reflexivity.
  - repeat constructor; simpl; lia.
Defined.

(** The simulation has no rows for a market ["z"]. *)
Lemma market_factory_raises_witness :
  market_factory (Error := string) results0 moments0 "z" w1
  = (Raise (KeyError "z"), w1).
Proof.
  destruct (market_factory_raises (Error := string) results0 moments0 "z"
              w1 panel1) as [Hkey _].
  { vm_compute. reflexivity. }
  apply Hkey. vm_compute. reflexivity.
Defined.

Lemma init_succeeds_witness :
  ∃ r,
    __init__ (collaborators := collab64) sim0 prices1 shares1 0%float
      1%float stats0 w0
    = (OK r,
       with_heap w0
         (<[fresh (dom (heap w0)) :=
              {| prices := prices1; shares := shares1;
                 columns := columns panel0 |}]> (heap w0)))
    ∧ simulation r = sim0
    ∧ r_product_data r = fresh (dom (heap w0))
    ∧ computation_time r = (1 - 0)%float
    ∧ delta r
      = zip_with PrimFloat.add
          ((λ row, num_dot (Dtype := float64) row (beta sim0)) <$> X1_0)
          (xi sim0).
Proof.
  apply (init_succeeds (collaborators := collab64) sim0 prices1 shares1
           0%float 1%float stats0 w0 panel0 X1_0).
  - vm_compute. reflexivity.
  - reflexivity.
  - reflexivity.
  - vm_compute. reflexivity.
  - repeat constructor.
  - reflexivity.
  - intros t Ht. simpl in Ht. apply elem_of_cons in Ht as [-> | Ht].
    + eexists. split; [vm_compute; reflexivity |]. simpl. lia.
    + apply elem_of_cons in Ht as [-> | Ht]; [| by apply elem_of_nil in Ht].
      eexists. split; [vm_compute; reflexivity |]. simpl. lia.
Defined.

Lemma default_problem_witness :
  let w' :=
    (__init__ (collaborators := collab64) sim0 prices1 shares1 0%float
       1%float stats0 w0).2 in
  let problem := to_problem results0 None None None None None in
  p_product_data problem ≠ product_data sim0
  ∧ heap w' !! p_product_data problem
    = Some {| prices := prices1; shares := shares1;
              columns := columns panel0 |}
  ∧ heap w' !! product_data sim0 = Some panel0
  ∧ p_product_formulations problem = product_formulations sim0.
Proof.
  apply (default_problem_uses_overlaid_panel (collaborators := collab64)
           sim0 prices1 shares1 0%float 1%float stats0 w0 results0 panel0
           None).
  - vm_compute. reflexivity.
  - vm_compute. reflexivity.
  - reflexivity.
  - reflexivity.
Defined.

(** The summary does not depend on the order of the markets. *)
Lemma summary_permutation_witness :
  __str__ (formatting := fmt) results0
  = __str__ (formatting := fmt) results0_swapped.
Proof.
  apply (summary_permutation (formatting := fmt) results0 results0_swapped).
  - reflexivity.
  - apply perm_swap.
  - apply perm_swap.
Defined.

(** The summary of the small economy shows 8 iterations and 18
    evaluations. *)
Lemma summary_witness :
  __str__ (formatting := fmt) results0
  = String.concat newline
      [ "Simulation Results Summary:";
        "===  ===  ===";
        "Computation  Fixed Point  Contraction";
        "Time  Iterations  Evaluations";
        "00:00:01  8  18";
        "===  ===  ===" ].
Proof.
  destruct (summary_of_constructed (collaborators := collab64)
              (formatting := fmt) sim0 prices1 shares1 0%float 1%float stats0
              w0 results0) as (Hstr & _ & _).
  { vm_compute. reflexivity. }
  rewrite Hstr. vm_compute. reflexivity.
Defined.
End MoreFacts.
